(** * SqliteNode: the execution contract of the n8n SQLite node

    A shallow embedding of [src/nodes/SqliteNode/SqliteNode.node.ts].
    The node's [execute] method is embedded as a function in a small
    state-and-exception monad.  The host (n8n), the file system ([fs]),
    the [sqlite3] driver and [JSON.parse] are the interfaces the method
    calls; they are taken as a [Runtime] over an abstract world.  Node's
    POSIX [path] module is modelled at the level of path segments. *)

From Stdlib Require Import ZArith Ascii String List Bool Lia.
From stdpp Require Import base list strings.

Set Warnings "-register-all".

(** ** Values *)

(** JavaScript values as far as the node handles them: the payload of an
    item, the rows of a result set, the parsed argument bag. *)
Inductive jsval : Type :=
| VUndefined
| VNull
| VBool (b : bool)
| VNumber (n : Z)
| VString (s : string)
| VArray (elems : list jsval)
| VObject (fields : list (string * jsval)).

(** A thrown [Error]; the node only ever reads its [message]. *)
Record JsError : Type := mkError { message : string }.

(** [INodeExecutionData]: the [json] payload and the rest of the item,
    which the node never touches. *)
Record INodeExecutionData : Type := mkItem {
  json : jsval;
  binary : option jsval
}.

(** [items[i].json = v] on an item object. *)
Definition with_json (v : jsval) (it : INodeExecutionData) : INodeExecutionData :=
  {| json := v; binary := binary it |}.

(** The object literal [{ json: result }]. *)
Definition json_only (result : jsval) : INodeExecutionData :=
  {| json := result; binary := None |}.

(** ** The host *)

(** [this.getWorkflow()]: the [id] may be missing, [null] or a string. *)
Inductive WorkflowId : Type :=
| IdUndefined
| IdNull
| IdString (s : string).

Record IWorkflowMetadata : Type := mkWorkflow { id : WorkflowId }.

(** The node parameters of one item, typed as the node's [description]
    declares them.  [None] is a parameter the host has no value for. *)
Record NodeParameters : Type := mkParams {
  param_dbName : option string;
  param_query_type : option string;
  param_query : option string;
  param_args : option string;
  param_spread : option bool
}.

(** One entry of [description.properties], as far as execution is
    concerned. *)
Record INodeProperties : Type := mkProperty {
  name : string;
  type : string;
  default_value : jsval;
  required : bool
}.

(** [description.properties] (lines 24 to 78). *)
Definition properties : list INodeProperties :=
  [ {| name := "dbName"; type := "string"; default_value := VString ""; required := true |};
    {| name := "query_type"; type := "options"; default_value := VString "AUTO";
       required := true |};
    {| name := "query"; type := "string"; default_value := VString ""; required := true |};
    {| name := "args"; type := "json"; default_value := VString "{}"; required := false |};
    {| name := "spread"; type := "boolean"; default_value := VBool false;
       required := false |} ].

(** The values of the [query_type] options (lines 41 to 49). *)
Definition queryTypeOptions : list string :=
  ["AUTO"; "CREATE"; "DELETE"; "INSERT"; "SELECT"; "UPDATE"; "DELETE_DATABASE"].

(** [IExecuteFunctions]: what [this] offers inside [execute]. *)
Record IExecuteFunctions : Type := mkHost {
  getInputData : list INodeExecutionData;
  getWorkflow : option IWorkflowMetadata;
  nodeParameters : nat -> NodeParameters;
  continueOnFail : bool
}.

(** [this.getNodeParameter(name, itemIndex, fallback) as string] for the
    four string parameters the method reads. *)
Definition getNodeParameter (this : IExecuteFunctions)
    (parameterName : string) (itemIndex : nat) (fallbackValue : string) : string :=
  let p := nodeParameters this itemIndex in
  let value :=
    if String.eqb parameterName "dbName" then param_dbName p
    else if String.eqb parameterName "query_type" then param_query_type p
    else if String.eqb parameterName "query" then param_query p
    else if String.eqb parameterName "args" then param_args p
    else None in
  match value with
  | Some s => s
  | None => fallbackValue
  end.

(** ** Effects *)

(** The calls that leave the process, in the order they are made. *)
Inductive Event : Type :=
| EvMkdirSync (dir : string) (recursive : bool) (err : option JsError)
| EvUnlinkSync (file : string) (err : option JsError)
| EvDatabaseNew (filename : string)
| EvDatabaseAll (filename sql : string) (params : jsval) (res : JsError + list jsval)
| EvDatabaseRun (filename sql : string) (params : jsval) (err : option JsError)
| EvDatabaseClose (filename : string).

(** The interfaces behind those calls, over a world [W] (the file system
    and the database files).  A call that can throw returns the error, and
    always the world it leaves behind. *)
Class Runtime (W : Type) : Type := {
  process_cwd : W -> string;
  fs_existsSync : string -> W -> bool;
  fs_mkdirSync : string -> W -> option JsError * W;
  fs_unlinkSync : string -> W -> option JsError * W;
  JSON_parse : string -> JsError + jsval;
  Database_new : string -> W -> W;
  Database_all : string -> string -> jsval -> W -> (JsError + list jsval) * W;
  Database_run : string -> string -> jsval -> W -> option JsError * W;
  Database_close : string -> W -> W
}.

(** What the file system promises about the two mutating calls. *)
Class RuntimeLaws (W : Type) `{Runtime W} : Prop := {
  unlinkSync_removes : forall p w w',
    fs_unlinkSync p w = (None, w') -> fs_existsSync p w' = false;
  mkdirSync_creates : forall p w w',
    fs_mkdirSync p w = (None, w') -> fs_existsSync p w' = true
}.

(** ** Node's [path] module (POSIX) *)

Module path.

Definition is_sep (c : ascii) : bool := Ascii.eqb c "/"%char.

(** The segments of a path between its separators. *)
Fixpoint split (s : string) : list string :=
  match s with
  | EmptyString => [EmptyString]
  | String c rest =>
      if is_sep c then EmptyString :: split rest
      else match split rest with
           | seg :: segs => String c seg :: segs
           | [] => [String c EmptyString]
           end
  end.

Fixpoint unsplit (segs : list string) : string :=
  match segs with
  | [] => EmptyString
  | [seg] => seg
  | seg :: rest => seg +:+ "/" +:+ unsplit rest
  end.

(** One segment of [normalizeString]; [res] is the result so far, last
    segment first. *)
Definition normalizeStep (allowAboveRoot : bool) (res : list string) (seg : string)
  : list string :=
  if String.eqb seg "" || String.eqb seg "." then res
  else if String.eqb seg ".." then
    match res with
    | [] => if allowAboveRoot then [".."] else []
    | top :: below =>
        if String.eqb top ".."
        then (if allowAboveRoot then ".." :: res else res)
        else below
    end
  else seg :: res.

Definition normalizeSegments (allowAboveRoot : bool) (segs : list string) : list string :=
  rev (fold_left (normalizeStep allowAboveRoot) segs []).

Definition normalizeString (p : string) (allowAboveRoot : bool) : string :=
  unsplit (normalizeSegments allowAboveRoot (split p)).

Definition isAbsolute (p : string) : bool :=
  match p with
  | String c _ => is_sep c
  | EmptyString => false
  end.

Fixpoint endsWithSep (p : string) : bool :=
  match p with
  | EmptyString => false
  | String c EmptyString => is_sep c
  | String _ rest => endsWithSep rest
  end.

Definition normalize (p : string) : string :=
  if String.eqb p "" then "."
  else
    let isAbs := isAbsolute p in
    let trailingSeparator := endsWithSep p in
    let q := normalizeString p (negb isAbs) in
    if String.eqb q "" then
      (if isAbs then "/" else if trailingSeparator then "./" else ".")
    else
      let q := if trailingSeparator then q +:+ "/" else q in
      if isAbs then "/" +:+ q else q.

(** [path.join(...args)] *)
Definition join (args : list string) : string :=
  match List.filter (fun arg => negb (String.eqb arg "")) args with
  | [] => "."
  | parts => normalize (unsplit parts)
  end.

(** The right-to-left loop of [path.resolve]: [rargs] are the arguments
    last first, followed by the working directory. *)
Fixpoint resolveLoop (rargs : list string) (resolvedPath : string) : string * bool :=
  match rargs with
  | [] => (resolvedPath, false)
  | p :: rest =>
      if String.eqb p "" then resolveLoop rest resolvedPath
      else
        let resolvedPath := p +:+ "/" +:+ resolvedPath in
        if isAbsolute p then (resolvedPath, true)
        else resolveLoop rest resolvedPath
  end.

(** [path.resolve(...args)] in a process whose working directory is [cwd]. *)
Definition resolve (cwd : string) (args : list string) : string :=
  let '(resolvedPath, resolvedAbsolute) := resolveLoop (rev args ++ [cwd]) "" in
  let q := normalizeString resolvedPath (negb resolvedAbsolute) in
  if resolvedAbsolute then "/" +:+ q
  else if String.eqb q "" then "." else q.

(** A string without a separator: one segment. *)
Fixpoint sepfree (s : string) : bool :=
  match s with
  | EmptyString => true
  | String c rest => negb (is_sep c) && sepfree rest
  end.

(** A segment that names a directory entry: [normalizeString] keeps it. *)
Definition named (seg : string) : bool :=
  negb (String.eqb seg "") && negb (String.eqb seg ".") && negb (String.eqb seg "..").

(** The directories of an absolute path, from the root down. *)
Definition directories (p : string) : list string :=
  normalizeSegments false (split p).

(** The segments [normalizeString] does not skip. *)
Definition kept (seg : string) : bool :=
  negb (String.eqb seg "" || String.eqb seg ".").

(** A segment of a normalised path. *)
Definition entry (seg : string) : Prop :=
  sepfree seg = true /\ named seg = true.

End path.

Arguments path.join : simpl never.
Arguments path.resolve : simpl never.
Arguments path.normalize : simpl never.

(** ** The state of one invocation *)

(** The two arrays [execute] works on.  The method hands one of them to
    [prepareOutputData]; which one is part of the result, so that "the
    input list itself" and "a list with the same contents" stay apart. *)
Inductive ArrayRef : Type :=
| RefItems
| RefSpreadResults.

Inductive Completion (A : Type) : Type :=
| Normal (a : A)
| Throw (e : JsError).
Arguments Normal {A} a.
Arguments Throw {A} e.

Section Node.

Context {W : Type} `{RT : Runtime W}.

Record State : Type := mkState {
  items : list INodeExecutionData;
  spreadResults : list INodeExecutionData;
  world : W;
  trace : list Event
}.

Definition set_items (l : list INodeExecutionData) (st : State) : State :=
  {| items := l; spreadResults := spreadResults st;
     world := world st; trace := trace st |}.

Definition set_spreadResults (l : list INodeExecutionData) (st : State) : State :=
  {| items := items st; spreadResults := l;
     world := world st; trace := trace st |}.

(** An external call: the world it leaves and its entry in the trace. *)
Definition external (w : W) (ev : Event) (st : State) : State :=
  {| items := items st; spreadResults := spreadResults st;
     world := w; trace := trace st ++ [ev] |}.

(** Computations that read and write the state and may throw. *)
Definition M (A : Type) : Type := State -> Completion A * State.

Definition ret {A} (a : A) : M A := fun st => (Normal a, st).

Definition throw {A} (e : JsError) : M A := fun st => (Throw e, st).

Definition bind {A B} (m : M A) (k : A -> M B) : M B :=
  fun st =>
    match m st with
    | (Normal a, st') => k a st'
    | (Throw e, st') => (Throw e, st')
    end.

Definition try_catch {A} (body : M A) (handler : JsError -> M A) : M A :=
  fun st =>
    match body st with
    | (Normal a, st') => (Normal a, st')
    | (Throw e, st') => handler e st'
    end.

Notation "'do' x <- m 'in' k" := (bind m (fun x => k))
  (at level 10, x name, m at level 200, k at level 200).

(** *** The calls *)

Definition existsSync (p : string) : M bool :=
  fun st => (Normal (fs_existsSync p (world st)), st).

(** [fs.mkdirSync(dir, { recursive: true })] *)
Definition mkdirSync (dir : string) : M unit :=
  fun st =>
    match fs_mkdirSync dir (world st) with
    | (None, w) => (Normal tt, external w (EvMkdirSync dir true None) st)
    | (Some e, w) => (Throw e, external w (EvMkdirSync dir true (Some e)) st)
    end.

Definition unlinkSync (file : string) : M unit :=
  fun st =>
    match fs_unlinkSync file (world st) with
    | (None, w) => (Normal tt, external w (EvUnlinkSync file None) st)
    | (Some e, w) => (Throw e, external w (EvUnlinkSync file (Some e)) st)
    end.

Definition parse (text : string) : M jsval :=
  fun st =>
    match JSON_parse text with
    | inr v => (Normal v, st)
    | inl e => (Throw e, st)
    end.

(** [new sqlite3.Database(filename)]; the handle is named by its file.

    The constructor hands the handle back at once and throws nothing
    into [execute]; the driver opens the file afterwards.  When that
    open fails, the driver emits an ['error'] event on the handle and
    never runs the statement queued on it: [execute] has given the
    constructor no callback and the handle no listener, so the promise
    it awaits is never settled and [execute] neither returns nor throws.
    The embedding describes the invocations that settle, in all of which
    every open has succeeded, and [Database_new] is the effect of such
    an open. *)
Definition newDatabase (filename : string) : M string :=
  fun st =>
    (Normal filename,
     external (Database_new filename (world st)) (EvDatabaseNew filename) st).

(** [await new Promise(... db.all(query, args, callback) ...)] *)
Definition all (db query : string) (args : jsval) : M (list jsval) :=
  fun st =>
    match Database_all db query args (world st) with
    | (inr rows, w) =>
        (Normal rows, external w (EvDatabaseAll db query args (inr rows)) st)
    | (inl e, w) =>
        (Throw e, external w (EvDatabaseAll db query args (inl e)) st)
    end.

(** [await new Promise(... db.run(query, args, callback) ...)], which
    resolves with the literal [[{ changes: 1 }]]. *)
Definition run (db query : string) (args : jsval) : M (list jsval) :=
  fun st =>
    match Database_run db query args (world st) with
    | (None, w) =>
        (Normal [VObject [("changes", VNumber 1)]],
         external w (EvDatabaseRun db query args None) st)
    | (Some e, w) =>
        (Throw e, external w (EvDatabaseRun db query args (Some e)) st)
    end.

Definition close (db : string) : M unit :=
  fun st =>
    (Normal tt, external (Database_close db (world st)) (EvDatabaseClose db) st).

(** [process.cwd()], read by [path.resolve]. *)
Definition processCwd : M string :=
  fun st => (Normal (process_cwd (world st)), st).

(** *** The two arrays *)

Definition itemsLength : M nat :=
  fun st => (Normal (length (items st)), st).

Definition spreadResultsLength : M nat :=
  fun st => (Normal (length (spreadResults st)), st).

Definition TypeError_json : JsError :=
  mkError "Cannot set properties of undefined (setting 'json')".

(** [items[itemIndex].json = v]; past the end of the array [items[i]] is
    [undefined] and the assignment throws. *)
Definition setItemJson (itemIndex : nat) (v : jsval) : M unit :=
  fun st =>
    match items st !! itemIndex with
    | Some it => (Normal tt, set_items (<[itemIndex := with_json v it]> (items st)) st)
    | None => (Throw TypeError_json, st)
    end.

(** [results.forEach((result) => spreadResults.push({ json: result }))] *)
Definition pushAll (results : list jsval) : M unit :=
  fun st =>
    (Normal tt, set_spreadResults (spreadResults st ++ map json_only results) st).

(** [results[0]] *)
Definition first (results : list jsval) : jsval :=
  match results with
  | r :: _ => r
  | [] => VUndefined
  end.

(** *** [execute] *)

Section Execute.

Variable this : IExecuteFunctions.

(** [workflowInfo?.id || 'default_workflow'] *)
Definition workflowId : string :=
  match getWorkflow this with
  | Some workflowInfo =>
      match id workflowInfo with
      | IdString s => if String.eqb s "" then "default_workflow" else s
      | IdUndefined | IdNull => "default_workflow"
      end
  | None => "default_workflow"
  end.

Definition workflowDir (cwd : string) : string :=
  path.resolve cwd ["./databases"; workflowId].

(** The [dbPath] of an item, as the [try] block computes it. *)
Definition dbPathOf (wfDir : string) (itemIndex : nat) : string :=
  path.join [wfDir; getNodeParameter this "dbName" itemIndex "" +:+ ".db"].

(** The body of the [try] block for one item. *)
Definition tryBody (wfDir : string) (itemIndex : nat) : M unit :=
  let dbName := getNodeParameter this "dbName" itemIndex "" in
  let queryType := getNodeParameter this "query_type" itemIndex "AUTO" in
  let dbPath := path.join [wfDir; dbName +:+ ".db"] in
  if String.eqb queryType "DELETE_DATABASE" then
    do found <- existsSync dbPath in
    if found then
      do _ <- unlinkSync dbPath in
      setItemJson itemIndex
        (VObject [("success", VBool true);
                  ("message", VString ("Database " +:+ dbName +:+ " deleted successfully."))])
    else
      setItemJson itemIndex
        (VObject [("success", VBool false);
                  ("message", VString ("Database " +:+ dbName +:+ " does not exist."))])
  else
    let query := getNodeParameter this "query" itemIndex "" in
    let argsString := getNodeParameter this "args" itemIndex "{}" in
    do args <- parse argsString in
    do db <- newDatabase dbPath in
    do results <- (if String.eqb queryType "SELECT"
                   then all db query args
                   else run db query args) in
    do _ <- (if String.eqb queryType "SELECT"
        then pushAll results
        else setItemJson itemIndex (first results)) in
    close db.

(** One turn of the loop: the [try] block and its [catch]. *)
Definition iteration (wfDir : string) (itemIndex : nat) : M unit :=
  try_catch (tryBody wfDir itemIndex)
    (fun error =>
       if continueOnFail this then
         setItemJson itemIndex (VObject [("error", VString (message error))])
       else throw error).

(** [for (let itemIndex = 0; itemIndex < items.length; itemIndex++)],
    over the indices still to visit.  The body never changes the
    length of [items], so the indices are fixed when the loop starts. *)
Fixpoint forLoop (wfDir : string) (indices : list nat) : M unit :=
  match indices with
  | [] => ret tt
  | itemIndex :: later => do _ <- iteration wfDir itemIndex in forLoop wfDir later
  end.

(** [this.prepareOutputData(outputData)] wraps its argument in the
    one-output array the host expects. *)
Definition prepareOutputData (outputData : ArrayRef) : M (list ArrayRef) :=
  ret [outputData].

(** Lines 85 to 91: the per-workflow directory, created when absent. *)
Definition ensureWorkflowDir : M string :=
  do cwd <- processCwd in
  let wfDir := workflowDir cwd in
  do found <- existsSync wfDir in
  do _ <- (if negb found then mkdirSync wfDir else ret tt) in
  ret wfDir.

(** Line 143: which array is returned. *)
Definition selectOutput : M (list ArrayRef) :=
  do n <- spreadResultsLength in
  if 0 <? n
  then prepareOutputData RefSpreadResults
  else prepareOutputData RefItems.

(** Everything after [getInputData] and [let spreadResults = []]. *)
Definition executeBody : M (list ArrayRef) :=
  do wfDir <- ensureWorkflowDir in
  do n <- itemsLength in
  do _ <- forLoop wfDir (seq 0 n) in
  selectOutput.

Definition initialState (w : W) : State :=
  {| items := getInputData this; spreadResults := []; world := w; trace := [] |}.

Definition execute (w : W) : Completion (list ArrayRef) * State :=
  executeBody (initialState w).

(** The invocation up to the moment the loop arrives at item [k]:
    the directory of the workflow and the state at that moment, or
    the error that ended the invocation earlier. *)
Definition reach (w : W) (k : nat) : Completion string * State :=
  (do wfDir <- ensureWorkflowDir in
   do _ <- forLoop wfDir (seq 0 k) in
   ret wfDir) (initialState w).

(** The rest of the invocation from item [k] on. *)
Definition resume (wfDir : string) (k : nat) : M (list ArrayRef) :=
  do n <- itemsLength in
  do _ <- forLoop wfDir (seq k (n - k)) in
  selectOutput.

End Execute.

(** The array behind a reference, in a given state. *)
Definition deref (st : State) (r : ArrayRef) : list INodeExecutionData :=
  match r with
  | RefItems => items st
  | RefSpreadResults => spreadResults st
  end.

(** What the host receives: the returned arrays as they are when the
    method returns. *)
Definition output (res : Completion (list ArrayRef) * State)
  : option (list (list INodeExecutionData)) :=
  match res with
  | (Normal refs, st) => Some (map (deref st) refs)
  | (Throw _, _) => None
  end.

End Node.

Arguments State W : clear implicits.

(** The payloads the node writes. *)
Definition changes_1 : jsval := VObject [("changes", VNumber 1)].

Definition deleted_payload (dbName : string) : jsval :=
  VObject [("success", VBool true);
           ("message", VString ("Database " +:+ dbName +:+ " deleted successfully."))].

Definition missing_payload (dbName : string) : jsval :=
  VObject [("success", VBool false);
           ("message", VString ("Database " +:+ dbName +:+ " does not exist."))].

Definition error_payload (e : JsError) : jsval :=
  VObject [("error", VString (message e))].

(** The records a call of the driver contributes to [spreadResults]:
    one per row of a result set, nothing otherwise. *)
Definition spread_of (ev : Event) : list INodeExecutionData :=
  match ev with
  | EvDatabaseAll _ _ _ (inr rows) => map json_only rows
  | _ => []
  end.

Definition is_mkdir (ev : Event) : bool :=
  match ev with
  | EvMkdirSync _ _ _ => true
  | _ => false
  end.

(** The kinds that take the branch of line 120: neither [SELECT] nor
    [DELETE_DATABASE]. *)
Definition mutating (queryType : string) : bool :=
  negb (String.eqb queryType "SELECT") && negb (String.eqb queryType "DELETE_DATABASE").

(** ** Hosts that differ in one parameter *)

(** The same invocation but for the [spread] parameter of the items. *)
Definition same_but_spread (this1 this2 : IExecuteFunctions) : Prop :=
  getInputData this1 = getInputData this2
  /\ getWorkflow this1 = getWorkflow this2
  /\ continueOnFail this1 = continueOnFail this2
  /\ forall i,
       param_dbName (nodeParameters this1 i) = param_dbName (nodeParameters this2 i)
       /\ param_query_type (nodeParameters this1 i) = param_query_type (nodeParameters this2 i)
       /\ param_query (nodeParameters this1 i) = param_query (nodeParameters this2 i)
       /\ param_args (nodeParameters this1 i) = param_args (nodeParameters this2 i).

(** The same invocation but for the kind of some items, which is on both
    sides a kind other than [SELECT] and [DELETE_DATABASE]. *)
Definition same_but_mutating_kind (this1 this2 : IExecuteFunctions) : Prop :=
  getInputData this1 = getInputData this2
  /\ getWorkflow this1 = getWorkflow this2
  /\ continueOnFail this1 = continueOnFail this2
  /\ forall i,
       param_dbName (nodeParameters this1 i) = param_dbName (nodeParameters this2 i)
       /\ param_query (nodeParameters this1 i) = param_query (nodeParameters this2 i)
       /\ param_args (nodeParameters this1 i) = param_args (nodeParameters this2 i)
       /\ (getNodeParameter this1 "query_type" i "AUTO"
           = getNodeParameter this2 "query_type" i "AUTO"
           \/ (mutating (getNodeParameter this1 "query_type" i "AUTO") = true
               /\ mutating (getNodeParameter this2 "query_type" i "AUTO") = true)).

(** ** An in-memory runtime

    A file system that is a list of paths, some of them write-protected,
    and a driver that answers from a fixed table of result sets.  It is
    the runtime of the examples below. *)
Module Mem.

Record World : Type := mkWorld {
  cwd : string;
  files : list string;
  denied : list string;
  queries : list (string * list jsval);
  statements : list string
}.

Definition set_files (l : list string) (w : World) : World :=
  {| cwd := cwd w; files := l; denied := denied w;
     queries := queries w; statements := statements w |}.

Definition mem (p : string) (l : list string) : bool := existsb (String.eqb p) l.

Definition existsSync (p : string) (w : World) : bool := mem p (files w).

Definition mkdirSync (p : string) (w : World) : option JsError * World :=
  if mem p (denied w)
  then (Some (mkError ("EACCES: permission denied, mkdir '" +:+ p +:+ "'")), w)
  else (None, set_files (p :: files w) w).

Definition unlinkSync (p : string) (w : World) : option JsError * World :=
  if mem p (denied w)
  then (Some (mkError ("EPERM: operation not permitted, unlink '" +:+ p +:+ "'")), w)
  else if mem p (files w)
  then (None, set_files (List.filter (fun q => negb (String.eqb p q)) (files w)) w)
  else (Some (mkError ("ENOENT: no such file or directory, unlink '" +:+ p +:+ "'")), w).

(** The argument bags of the examples: the empty object and the empty
    array parse, every other text is rejected. *)
Definition parse (text : string) : JsError + jsval :=
  if String.eqb text "{}" then inr (VObject [])
  else if String.eqb text "[]" then inr (VArray [])
  else inl (mkError "Unexpected token in JSON").

(** Opening a database creates its file. *)
Definition open (p : string) (w : World) : World :=
  if mem p (files w) then w else set_files (p :: files w) w.

Fixpoint answer (sql : string) (table : list (string * list jsval)) : option (list jsval) :=
  match table with
  | [] => None
  | (q, rows) :: rest => if String.eqb sql q then Some rows else answer sql rest
  end.

Definition all (p sql : string) (params : jsval) (w : World)
  : (JsError + list jsval) * World :=
  match answer sql (queries w) with
  | Some rows => (inr rows, w)
  | None => (inl (mkError "SQLITE_ERROR: no such table"), w)
  end.

Definition run (p sql : string) (params : jsval) (w : World) : option JsError * World :=
  if mem sql (statements w) then (None, w)
  else (Some (mkError "SQLITE_ERROR: syntax error"), w).

#[global] Instance runtime : Runtime World := {|
  process_cwd := cwd;
  fs_existsSync := existsSync;
  fs_mkdirSync := mkdirSync;
  fs_unlinkSync := unlinkSync;
  JSON_parse := parse;
  Database_new := open;
  Database_all := all;
  Database_run := run;
  Database_close := fun _ w => w
|}.

End Mem.

(** ** Example invocations

    Invocations of the node on the in-memory runtime, in a process
    started in [/home/node] by the workflow [wf1]. *)
Module Ex.

Definition row (n : Z) : jsval := VObject [("id", VNumber n)].

(** A world in which the directory of the workflow and the database
    [old] exist, and the database [locked] exists but cannot be removed. *)
Definition shop : Mem.World := {|
  Mem.cwd := "/home/node";
  Mem.files := ["/home/node/databases/wf1";
                "/home/node/databases/wf1/old.db";
                "/home/node/databases/wf1/locked.db"];
  Mem.denied := ["/home/node/databases/wf1/locked.db"];
  Mem.queries := [("SELECT * FROM orders", [row 1; row 2]);
                  ("SELECT * FROM orders WHERE id < 0", [])];
  Mem.statements := ["INSERT INTO orders VALUES (1)"; "DELETE FROM orders"]
|}.

(** The same process before the node has ever run. *)
Definition fresh : Mem.World := Mem.set_files [] shop.

Definition input (n : Z) : INodeExecutionData :=
  {| json := VObject [("n", VNumber n)]; binary := Some (VString "attachment") |}.

Definition request (dbName kind query args : string) : NodeParameters :=
  {| param_dbName := Some dbName; param_query_type := Some kind;
     param_query := Some query; param_args := Some args;
     param_spread := Some false |}.

Definition no_parameters : NodeParameters :=
  {| param_dbName := None; param_query_type := None; param_query := None;
     param_args := None; param_spread := None |}.

(** One input item per request. *)
Definition host (continue : bool) (requests : list NodeParameters) : IExecuteFunctions :=
  {| getInputData := map (fun k => input (Z.of_nat k)) (seq 0 (length requests));
     getWorkflow := Some {| id := IdString "wf1" |};
     nodeParameters := fun i => nth i requests no_parameters;
     continueOnFail := continue |}.

Definition insert_order : NodeParameters :=
  request "orders" "INSERT" "INSERT INTO orders VALUES (1)" "{}".

Definition select_orders : NodeParameters :=
  request "orders" "SELECT" "SELECT * FROM orders" "{}".

Definition select_nothing : NodeParameters :=
  request "orders" "SELECT" "SELECT * FROM orders WHERE id < 0" "{}".

Definition insert_bad_args : NodeParameters :=
  request "orders" "INSERT" "INSERT INTO orders VALUES (1)" "{".

Definition delete_old : NodeParameters :=
  request "old" "DELETE_DATABASE" "" "{}".

Definition delete_missing : NodeParameters :=
  request "archive" "DELETE_DATABASE" "" "{}".

Definition delete_old_bad_args : NodeParameters :=
  request "old" "DELETE_DATABASE" "" "{".

(** The same request with [Spread Result] switched on. *)
Definition spreading (p : NodeParameters) : NodeParameters :=
  {| param_dbName := param_dbName p; param_query_type := param_query_type p;
     param_query := param_query p; param_args := param_args p;
     param_spread := Some true |}.

Definition auto_insert_order : NodeParameters :=
  request "orders" "AUTO" "INSERT INTO orders VALUES (1)" "{}".

(** An invocation by a host that knows no workflow. *)
Definition anonymous : IExecuteFunctions :=
  {| getInputData := [input 0];
     getWorkflow := None;
     nodeParameters := fun _ => insert_order;
     continueOnFail := false |}.

(** The directory of the workflow [wf1]. *)
Definition wf1 : string := "/home/node/databases/wf1".

End Ex.

(** ** More example invocations *)
Module More.

(** A process that may not create the directory of the workflow. *)
Definition readonly : Mem.World := {|
  Mem.cwd := "/home/node";
  Mem.files := [];
  Mem.denied := [Ex.wf1];
  Mem.queries := [];
  Mem.statements := ["INSERT INTO orders VALUES (1)"]
|}.

Definition delete_old_with_query : NodeParameters :=
  Ex.request "old" "DELETE_DATABASE" "DROP TABLE orders" "{}".

Definition insert_shared : NodeParameters :=
  Ex.request "../shared" "INSERT" "INSERT INTO orders VALUES (1)" "{}".

Definition select_failing : NodeParameters :=
  Ex.request "orders" "SELECT" "SELECT * FROM nowhere" "{}".

(** The database [locked] of [Ex.shop] exists and cannot be removed. *)
Definition delete_locked : NodeParameters :=
  Ex.request "locked" "DELETE_DATABASE" "" "{}".

Definition locked_db : string := "/home/node/databases/wf1/locked.db".

Definition EPERM_locked : JsError :=
  mkError "EPERM: operation not permitted, unlink '/home/node/databases/wf1/locked.db'".

(** A host that knows no workflow, asked for the database [../shared]. *)
Definition anonymous_shared : IExecuteFunctions :=
  {| getInputData := [Ex.input 0];
     getWorkflow := None;
     nodeParameters := fun _ => insert_shared;
     continueOnFail := false |}.

End More.

(** ** Relations between the states of an invocation *)

Section Relations.

Context {W : Type} `{RT : Runtime W}.

(** [m] relates every state it starts in to the state it ends in,
    whether it returns or throws. *)
Definition preserves {A} (P : State W -> State W -> Prop) (m : M A) : Prop :=
  forall st r st', m st = (r, st') -> P st st'.

(** The items are the same objects: only payloads may differ. *)
Definition same_binary (st st' : State W) : Prop :=
  map binary (items st') = map binary (items st).

(** Item [j] is untouched. *)
Definition kept (j : nat) (st st' : State W) : Prop :=
  items st' !! j = items st !! j.

(** The calls made between two states: the trace grows by them, no
    directory is created, and [spreadResults] grows by the rows they
    fetched, in the order they were fetched. *)
Definition logged (st st' : State W) : Prop :=
  exists evs,
    trace st' = trace st ++ evs
    /\ spreadResults st' = spreadResults st ++ flat_map spread_of evs
    /\ forallb (fun ev => negb (is_mkdir ev)) evs = true.

(** Every record of [spreadResults] is a row some call has fetched. *)
Definition flushed (st : State W) : Prop :=
  spreadResults st = flat_map spread_of (trace st).

End Relations.

(** ** The calls of one turn of the loop *)

(** The calls one turn of the loop can make for an item of kind
    [queryType] whose file is [dbPath] and whose statement is [query]:
    none (the file to delete is not there, or [args] is not JSON); one
    [unlinkSync] of the file; or one database opened on the file, one
    statement sent to it, and the database closed when, and only when,
    the statement has not failed. *)
Inductive turn_calls (queryType dbPath query : string) : list Event -> Prop :=
| calls_none :
    turn_calls queryType dbPath query []
| calls_unlink err :
    queryType = "DELETE_DATABASE" ->
    turn_calls queryType dbPath query [EvUnlinkSync dbPath err]
| calls_all args rows :
    queryType = "SELECT" ->
    turn_calls queryType dbPath query
      [EvDatabaseNew dbPath; EvDatabaseAll dbPath query args (inr rows);
       EvDatabaseClose dbPath]
| calls_all_failed args e :
    queryType = "SELECT" ->
    turn_calls queryType dbPath query
      [EvDatabaseNew dbPath; EvDatabaseAll dbPath query args (inl e)]
| calls_run args :
    mutating queryType = true ->
    turn_calls queryType dbPath query
      [EvDatabaseNew dbPath; EvDatabaseRun dbPath query args None;
       EvDatabaseClose dbPath]
| calls_run_failed args e :
    mutating queryType = true ->
    turn_calls queryType dbPath query
      [EvDatabaseNew dbPath; EvDatabaseRun dbPath query args (Some e)].

(** The same invocation but for the [query] and [args] of items whose
    kind is [DELETE_DATABASE]. *)
Definition same_but_unread_by_delete (this1 this2 : IExecuteFunctions) : Prop :=
  getInputData this1 = getInputData this2
  /\ getWorkflow this1 = getWorkflow this2
  /\ continueOnFail this1 = continueOnFail this2
  /\ forall i,
       param_dbName (nodeParameters this1 i) = param_dbName (nodeParameters this2 i)
       /\ param_query_type (nodeParameters this1 i)
          = param_query_type (nodeParameters this2 i)
       /\ (getNodeParameter this1 "query_type" i "AUTO" = "DELETE_DATABASE"
           \/ (param_query (nodeParameters this1 i) = param_query (nodeParameters this2 i)
               /\ param_args (nodeParameters this1 i)
                  = param_args (nodeParameters this2 i))).

(** The payloads [execute] can leave in an item that came in with
    payload [before], by the kind and the database name of the item. *)
Inductive payload_of (continue : bool) (queryType dbName : string) (before : jsval)
  : jsval -> Prop :=
| payload_untouched :
    queryType = "SELECT" -> payload_of continue queryType dbName before before
| payload_changes :
    mutating queryType = true -> payload_of continue queryType dbName before changes_1
| payload_deleted :
    queryType = "DELETE_DATABASE" ->
    payload_of continue queryType dbName before (deleted_payload dbName)
| payload_missing :
    queryType = "DELETE_DATABASE" ->
    payload_of continue queryType dbName before (missing_payload dbName)
| payload_error e :
    continue = true -> payload_of continue queryType dbName before (error_payload e).

(** * Properties *)

(** ** Relations the whole method preserves *)

Section Preserved.

Context {W : Type} `{RT : Runtime W}.

Section Preorder.

Variable P : State W -> State W -> Prop.
Hypothesis P_refl : forall st, P st st.
Hypothesis P_trans : forall a b c, P a b -> P b c -> P a c.

Lemma preserves_ret {A} (a : A) : preserves P (ret a).
Proof using P_refl. intros st r st' [= <- <-]. apply P_refl. Qed.

Lemma preserves_throw {A} e : preserves P (@throw W A e).
Proof using P_refl. intros st r st' [= <- <-]. apply P_refl. Qed.

Lemma preserves_pure {A} (f : State W -> Completion A) :
  preserves P (fun st => (f st, st)).
Proof using P_refl. intros st r st' [= <- <-]. apply P_refl. Qed.

Lemma preserves_bind {A B} (m : M A) (k : A -> M B) :
  preserves P m -> (forall a, preserves P (k a)) -> preserves P (bind m k).
Proof using P_trans.
  intros Hm Hk st r st' H. unfold bind in H.
  destruct (m st) as [[a|e] st1] eqn:E.
  - eapply P_trans; [eapply Hm, E | eapply Hk, H].
  - injection H as <- <-. eapply Hm, E.
Qed.

Lemma preserves_try_catch {A} (m : M A) (h : JsError -> M A) :
  preserves P m -> (forall e, preserves P (h e)) -> preserves P (try_catch m h).
Proof using P_trans.
  intros Hm Hh st r st' H. unfold try_catch in H.
  destruct (m st) as [[a|e] st1] eqn:E.
  - injection H as <- <-. eapply Hm, E.
  - eapply P_trans; [eapply Hm, E | eapply Hh, H].
Qed.

Lemma preserves_if {A} (b : bool) (m1 m2 : M A) :
  preserves P m1 -> preserves P m2 -> preserves P (if b then m1 else m2).
Proof. destruct b; auto. Qed.

End Preorder.

(** A relation that every call preserves is preserved by the [try]
    block.  [ok] are the items whose payload may be written. *)
Section Calls.

Variable P : State W -> State W -> Prop.
Variable ok : nat -> Prop.
Hypothesis P_refl : forall st, P st st.
Hypothesis P_trans : forall a b c, P a b -> P b c -> P a c.
Hypothesis P_external : forall w ev st, P st (external w ev st).
Hypothesis P_setItemJson : forall i v, ok i -> preserves P (setItemJson i v).
Hypothesis P_pushAll : forall rows, preserves P (pushAll rows).

Lemma preserves_unlinkSync p : preserves P (unlinkSync p).
Proof using P_external.
  intros st r st'. unfold unlinkSync.
  destruct (fs_unlinkSync p (world st)) as [[e|] w]; intros [= <- <-];
    by apply P_external.
Qed.

Lemma preserves_parse text : preserves P (parse text).
Proof using P_refl.
  intros st r st'. unfold parse.
  destruct (JSON_parse text); intros [= <- <-]; apply P_refl.
Qed.

Lemma preserves_newDatabase p : preserves P (newDatabase p).
Proof using P_external. intros st r st' [= <- <-]. by apply P_external. Qed.

Lemma preserves_all db q a : preserves P (all db q a).
Proof using P_external.
  intros st r st'. unfold all.
  destruct (Database_all db q a (world st)) as [[e|rows] w]; intros [= <- <-];
    by apply P_external.
Qed.

Lemma preserves_run db q a : preserves P (run db q a).
Proof using P_external.
  intros st r st'. unfold run.
  destruct (Database_run db q a (world st)) as [[e|] w]; intros [= <- <-];
    by apply P_external.
Qed.

Lemma preserves_close db : preserves P (close db).
Proof using P_external. intros st r st' [= <- <-]. by apply P_external. Qed.

Lemma preserves_tryBody this wfDir i : ok i -> preserves P (tryBody this wfDir i).
Proof using P_refl P_trans P_external P_setItemJson P_pushAll.
  intros Hi. unfold tryBody.
  repeat first
    [ apply preserves_if
    | apply preserves_bind; [assumption | | intros ?]
    | apply preserves_pure; assumption
    | apply preserves_unlinkSync
    | apply preserves_parse | apply preserves_newDatabase
    | apply preserves_all | apply preserves_run | apply preserves_close
    | apply P_setItemJson; assumption | apply P_pushAll ].
Qed.

End Calls.

(** A relation that the [try] block and the [catch] clause preserve is
    preserved by the loop and by what follows it. *)
Section Loop.

Variable P : State W -> State W -> Prop.
Variable ok : nat -> Prop.
Variable this : IExecuteFunctions.
Hypothesis P_refl : forall st, P st st.
Hypothesis P_trans : forall a b c, P a b -> P b c -> P a c.
Hypothesis P_tryBody : forall wfDir i, ok i -> preserves P (tryBody this wfDir i).
Hypothesis P_setItemJson : forall i v, ok i -> preserves P (setItemJson i v).

Lemma preserves_iteration wfDir i : ok i -> preserves P (iteration this wfDir i).
Proof using P_refl P_trans P_tryBody P_setItemJson.
  intros Hi. unfold iteration.
  apply preserves_try_catch; [assumption | by apply P_tryBody |].
  intros e. apply preserves_if; [by apply P_setItemJson | by apply preserves_throw].
Qed.

Lemma preserves_forLoop wfDir indices :
  Forall ok indices -> preserves P (forLoop this wfDir indices).
Proof using P_refl P_trans P_tryBody P_setItemJson.
  induction 1 as [|i later Hi _ IH]; simpl.
  - by apply preserves_ret.
  - apply preserves_bind; [assumption | by apply preserves_iteration | intros _; apply IH].
Qed.

Lemma preserves_selectOutput : preserves P selectOutput.
Proof using P_refl P_trans.
  unfold selectOutput, prepareOutputData.
  apply preserves_bind; [assumption | by apply preserves_pure | intros n].
  apply preserves_if; by apply preserves_ret.
Qed.

End Loop.

End Preserved.

(** ** The invariants of the loop *)

Section Invariants.

Context {W : Type} `{RT : Runtime W}.
Implicit Types (st : State W) (this : IExecuteFunctions).

Lemma same_binary_refl st : same_binary st st.
Proof. reflexivity. Qed.

Lemma same_binary_trans st1 st2 st3 :
  same_binary st1 st2 -> same_binary st2 st3 -> same_binary st1 st3.
Proof. unfold same_binary. congruence. Qed.

Lemma same_binary_length st st' :
  same_binary st st' -> length (items st') = length (items st).
Proof.
  unfold same_binary. intros H.
  rewrite <- (length_map binary (items st')), H. apply length_map.
Qed.

Lemma kept_refl j st : kept j st st.
Proof. reflexivity. Qed.

Lemma kept_trans j st1 st2 st3 : kept j st1 st2 -> kept j st2 st3 -> kept j st1 st3.
Proof. unfold kept. congruence. Qed.

Lemma logged_refl st : logged st st.
Proof. exists []. by rewrite !app_nil_r. Qed.

Lemma logged_trans st1 st2 st3 : logged st1 st2 -> logged st2 st3 -> logged st1 st3.
Proof.
  intros (e1 & T1 & S1 & M1) (e2 & T2 & S2 & M2). exists (e1 ++ e2).
  rewrite T2, T1, S2, S1, flat_map_app, forallb_app, M1, M2, <- !app_assoc. done.
Qed.

(** *** Writing a payload *)

Lemma setItemJson_Some i v st it :
  items st !! i = Some it ->
  setItemJson i v st = (Normal tt, set_items (<[i := with_json v it]> (items st)) st).
Proof. intros H. unfold setItemJson. by rewrite H. Qed.

Lemma setItemJson_same_binary i v : preserves (W:=W) same_binary (setItemJson i v).
Proof.
  intros st r st'. unfold setItemJson, same_binary.
  destruct (items st !! i) as [it|] eqn:E; intros [= <- <-]; [|done].
  simpl. change (binary <$> <[i := with_json v it]> (items st) = binary <$> items st).
  rewrite list_fmap_insert. simpl.
  apply list_insert_id. by rewrite list_lookup_fmap, E.
Qed.

Lemma setItemJson_kept j i v : i <> j -> preserves (W:=W) (kept j) (setItemJson i v).
Proof.
  intros Hij st r st'. unfold setItemJson, kept.
  destruct (items st !! i) as [it|]; intros [= <- <-]; [|done].
  simpl. by apply list_lookup_insert_ne.
Qed.

Lemma setItemJson_logged i v : preserves (W:=W) logged (setItemJson i v).
Proof.
  intros st r st'. unfold setItemJson.
  destruct (items st !! i) as [it|]; intros [= <- <-];
    exists []; simpl; by rewrite !app_nil_r.
Qed.

(** *** The [try] block *)

Lemma tryBody_same_binary this wfDir i : preserves (W:=W) same_binary (tryBody this wfDir i).
Proof.
  apply (preserves_tryBody same_binary (fun _ => True)); try done.
  - apply same_binary_trans.
  - intros j v _. apply setItemJson_same_binary.
  - by intros rows st r st' [= <- <-].
Qed.

Lemma tryBody_kept j this wfDir i : i <> j -> preserves (W:=W) (kept j) (tryBody this wfDir i).
Proof.
  apply (preserves_tryBody (kept j) (fun i => i <> j)); try done.
  - apply kept_trans.
  - intros i' v. apply setItemJson_kept.
  - by intros rows st r st' [= <- <-].
Qed.

Lemma tryBody_logged this wfDir i : preserves (W:=W) logged (tryBody this wfDir i).
Proof.
  intros st r st'.
  unfold tryBody, bind, existsSync, unlinkSync, setItemJson, parse, newDatabase,
    all, run, pushAll, close.
  repeat case_match; intros ?; simplify_eq; unfold logged; simpl;
    rewrite <- ?app_assoc;
    first [ exists []; simpl; by rewrite ?app_nil_r
          | eexists; split; [reflexivity|]; simpl; by rewrite ?app_nil_r ].
Qed.

(** *** The loop *)

Lemma iteration_same_binary this wfDir i : preserves (W:=W) same_binary (iteration this wfDir i).
Proof.
  apply (preserves_iteration same_binary (fun _ => True)); try done.
  - apply same_binary_trans.
  - intros ? ? _. apply tryBody_same_binary.
  - intros ? ? _. apply setItemJson_same_binary.
Qed.

Lemma iteration_kept j this wfDir i : i <> j -> preserves (W:=W) (kept j) (iteration this wfDir i).
Proof.
  apply (preserves_iteration (kept j) (fun i => i <> j)); try done.
  - apply kept_trans.
  - intros ? ?. apply tryBody_kept.
  - intros ? ?. apply setItemJson_kept.
Qed.

Lemma iteration_logged this wfDir i : preserves (W:=W) logged (iteration this wfDir i).
Proof.
  apply (preserves_iteration logged (fun _ => True)); try done.
  - apply logged_refl.
  - apply logged_trans.
  - intros ? ? _. apply tryBody_logged.
  - intros ? ? _. apply setItemJson_logged.
Qed.

Lemma forLoop_same_binary this wfDir indices :
  preserves (W:=W) same_binary (forLoop this wfDir indices).
Proof.
  apply (preserves_forLoop same_binary (fun _ => True)); try done.
  - apply same_binary_trans.
  - intros ? ? _. apply tryBody_same_binary.
  - intros ? ? _. apply setItemJson_same_binary.
  - by apply Forall_forall.
Qed.

Lemma forLoop_kept j this wfDir indices :
  j ∉ indices -> preserves (W:=W) (kept j) (forLoop this wfDir indices).
Proof.
  intros Hj. apply (preserves_forLoop (kept j) (fun i => i <> j)); try done.
  - apply kept_trans.
  - intros ? ?. apply tryBody_kept.
  - intros ? ?. apply setItemJson_kept.
  - apply Forall_forall. intros i Hi ->. by apply Hj, list_elem_of_In.
Qed.

Lemma forLoop_logged this wfDir indices : preserves (W:=W) logged (forLoop this wfDir indices).
Proof.
  apply (preserves_forLoop logged (fun _ => True)); try done.
  - apply logged_refl.
  - apply logged_trans.
  - intros ? ? _. apply tryBody_logged.
  - intros ? ? _. apply setItemJson_logged.
  - by apply Forall_forall.
Qed.

Lemma forLoop_app this wfDir l1 l2 st :
  forLoop this wfDir (l1 ++ l2) st
  = bind (forLoop this wfDir l1) (fun _ => forLoop this wfDir l2) st.
Proof.
  revert st. induction l1 as [|i l1 IH]; intros st; simpl; [done|].
  unfold bind in *.
  destruct (iteration this wfDir i st) as [[[]|e] st1]; [|done].
  apply IH.
Qed.

End Invariants.

(** ** The invocation, item by item *)

Section Reaching.

Context {W : Type} `{RT : Runtime W}.
Variable this : IExecuteFunctions.
Implicit Types (st : State W) (w : W).

Lemma flushed_logged st st' : flushed st -> logged st st' -> flushed st'.
Proof.
  unfold flushed. intros F (evs & T & S & _).
  by rewrite T, S, F, flat_map_app.
Qed.

(** Lines 85 to 91, case by case. *)
Lemma ensureWorkflowDir_cases st :
  let wfDir := workflowDir this (process_cwd (world st)) in
  ensureWorkflowDir this st =
    if fs_existsSync wfDir (world st) then (Normal wfDir, st)
    else match fs_mkdirSync wfDir (world st) with
         | (None, w') => (Normal wfDir, external w' (EvMkdirSync wfDir true None) st)
         | (Some e, w') => (Throw e, external w' (EvMkdirSync wfDir true (Some e)) st)
         end.
Proof.
  unfold ensureWorkflowDir, bind, processCwd, existsSync, mkdirSync, ret. simpl.
  destruct (fs_existsSync _ (world st)); simpl; [done|].
  by destruct (fs_mkdirSync _ (world st)) as [[e|] w'].
Qed.

Lemma ensureWorkflowDir_spec st r st' :
  ensureWorkflowDir this st = (r, st') ->
  items st' = items st
  /\ spreadResults st' = spreadResults st
  /\ (flushed st -> flushed st')
  /\ forall wfDir, r = Normal wfDir -> wfDir = workflowDir this (process_cwd (world st)).
Proof.
  rewrite ensureWorkflowDir_cases. unfold flushed.
  destruct (fs_existsSync _ (world st)).
  - intros [= <- <-]. repeat split; congruence.
  - destruct (fs_mkdirSync _ (world st)) as [[e|] w']; intros [= <- <-]; simpl;
      (repeat split; [by intros ->; rewrite flat_map_app; simpl; rewrite app_nil_r
                     | congruence]).
Qed.

Lemma reach_spec w k r st :
  reach this w k = (r, st) ->
  same_binary (initialState this w) st
  /\ flushed st
  /\ (forall j, k <= j -> items st !! j = getInputData this !! j)
  /\ forall wfDir, r = Normal wfDir -> wfDir = workflowDir this (process_cwd w).
Proof.
  unfold reach, bind.
  destruct (ensureWorkflowDir this (initialState this w)) as [[wfDir|e] st0] eqn:E0.
  - destruct (ensureWorkflowDir_spec _ _ _ E0) as (I0 & S0 & F0 & D0).
    destruct (forLoop this wfDir (seq 0 k) st0) as [[[]|e] st1] eqn:E1;
      intros [= <- <-];
      (split; [|split; [|split]]).
    all: try (eapply same_binary_trans; [|eapply forLoop_same_binary, E1];
              unfold same_binary; by rewrite I0).
    all: try (eapply flushed_logged; [apply F0; reflexivity | eapply forLoop_logged, E1]).
    all: try (intros j Hj; transitivity (items st0 !! j); [|by rewrite I0];
              eapply (forLoop_kept j), E1; rewrite list_elem_of_In, in_seq; lia).
    + intros ? [= <-]. by apply D0.
    + done.
  - intros [= <- <-].
    destruct (ensureWorkflowDir_spec _ _ _ E0) as (I0 & S0 & F0 & D0).
    repeat split; try done.
    + unfold same_binary. by rewrite I0.
    + by apply F0.
    + intros j _. by rewrite I0.
Qed.

Lemma reach_length w k r st :
  reach this w k = (r, st) -> length (items st) = length (getInputData this).
Proof.
  intros H. destruct (reach_spec _ _ _ _ H) as (B & _).
  by apply same_binary_length in B.
Qed.

(** The item the loop arrives at is still the input item. *)
Lemma reach_item w k r st :
  reach this w k = (r, st) -> items st !! k = getInputData this !! k.
Proof. intros H. destruct (reach_spec _ _ _ _ H) as (_ & _ & K & _). by apply K. Qed.

(** [execute] is: arrive at item [k], then go on from there. *)
Lemma execute_reach w k :
  k <= length (getInputData this) ->
  execute this w =
    match reach this w k with
    | (Normal wfDir, st) => resume this wfDir k st
    | (Throw e, st) => (Throw e, st)
    end.
Proof.
  intros Hk. unfold execute, executeBody, reach, resume, bind.
  destruct (ensureWorkflowDir this (initialState this w)) as [[wfDir|e] st0] eqn:E0; [|done].
  destruct (ensureWorkflowDir_spec _ _ _ E0) as (I0 & _).
  unfold itemsLength. rewrite I0. simpl items.
  replace (seq 0 (length (getInputData this)))
    with (seq 0 k ++ seq k (length (getInputData this) - k)).
  2:{ rewrite <- seq_app. f_equal. lia. }
  rewrite forLoop_app. unfold bind.
  destruct (forLoop this wfDir (seq 0 k) st0) as [[[]|e] st1] eqn:E1; [|done].
  unfold ret.
  apply forLoop_same_binary, same_binary_length in E1. rewrite E1, I0. done.
Qed.

(** Going on from item [k] is: one turn of the loop, then going on from
    the next item. *)
Lemma resume_step wfDir k st :
  k < length (items st) ->
  resume this wfDir k st =
    match iteration this wfDir k st with
    | (Normal _, st') => resume this wfDir (S k) st'
    | (Throw e, st') => (Throw e, st')
    end.
Proof.
  intros Hk. unfold resume, bind, itemsLength.
  replace (length (items st) - k) with (S (length (items st) - S k)) by lia.
  simpl. unfold bind.
  destruct (iteration this wfDir k st) as [[[]|e] st1] eqn:E1; [|done].
  apply iteration_same_binary, same_binary_length in E1. by rewrite E1.
Qed.

Lemma resume_spec wfDir k st r st' :
  resume this wfDir k st = (r, st') ->
  same_binary st st'
  /\ logged st st'
  /\ (forall j, j < k -> items st' !! j = items st !! j)
  /\ forall out, r = Normal out ->
       out = [if 0 <? length (spreadResults st') then RefSpreadResults else RefItems].
Proof.
  unfold resume, bind, itemsLength.
  destruct (forLoop this wfDir _ st) as [[[]|e] st1] eqn:E1.
  - unfold selectOutput, bind, spreadResultsLength, prepareOutputData, ret.
    intros H.
    assert (st' = st1) as -> by (by destruct (0 <? _); injection H).
    split; [eapply forLoop_same_binary, E1|].
    split; [eapply forLoop_logged, E1|].
    split.
    + intros j Hj. eapply (forLoop_kept j), E1. rewrite list_elem_of_In, in_seq. lia.
    + intros out ->. by destruct (0 <? _); injection H.
  - intros [= <- <-].
    split; [eapply forLoop_same_binary, E1|].
    split; [eapply forLoop_logged, E1|].
    split; [|done].
    intros j Hj. eapply (forLoop_kept j), E1. rewrite list_elem_of_In, in_seq. lia.
Qed.

End Reaching.

(** ** One item, branch by branch *)

(** Two states built from the same calls are the same record. *)
Ltac state_eq :=
  unfold external, set_items, set_spreadResults; simpl;
  rewrite <- ?app_assoc; reflexivity.

Section Branches.

Context {W : Type} `{RT : Runtime W}.
Variable this : IExecuteFunctions.
Implicit Types (st : State W) (w : W).

Lemma mutating_tests queryType :
  mutating queryType = true ->
  String.eqb queryType "DELETE_DATABASE" = false /\ String.eqb queryType "SELECT" = false.
Proof.
  unfold mutating. rewrite andb_true_iff, !negb_true_iff. tauto.
Qed.

(** [DELETE_DATABASE], the file is there and [unlinkSync] returns. *)
Lemma tryBody_delete_existing wfDir i st it w' :
  getNodeParameter this "query_type" i "AUTO" = "DELETE_DATABASE" ->
  items st !! i = Some it ->
  fs_existsSync (dbPathOf this wfDir i) (world st) = true ->
  fs_unlinkSync (dbPathOf this wfDir i) (world st) = (None, w') ->
  tryBody this wfDir i st =
    (Normal tt,
     set_items (<[i := with_json (deleted_payload (getNodeParameter this "dbName" i "")) it]>
                  (items st))
       (external w' (EvUnlinkSync (dbPathOf this wfDir i) None) st)).
Proof.
  unfold dbPathOf. intros Hq Hi He Hu.
  unfold tryBody. rewrite Hq, String.eqb_refl.
  unfold bind, existsSync, unlinkSync. rewrite He, Hu.
  by erewrite setItemJson_Some by exact Hi.
Qed.

(** [DELETE_DATABASE], the file is there and [unlinkSync] throws. *)
Lemma tryBody_delete_failing wfDir i st e w' :
  getNodeParameter this "query_type" i "AUTO" = "DELETE_DATABASE" ->
  fs_existsSync (dbPathOf this wfDir i) (world st) = true ->
  fs_unlinkSync (dbPathOf this wfDir i) (world st) = (Some e, w') ->
  tryBody this wfDir i st =
    (Throw e, external w' (EvUnlinkSync (dbPathOf this wfDir i) (Some e)) st).
Proof.
  unfold dbPathOf. intros Hq He Hu.
  unfold tryBody. rewrite Hq, String.eqb_refl.
  unfold bind, existsSync, unlinkSync. by rewrite He, Hu.
Qed.

(** [DELETE_DATABASE], no such file. *)
Lemma tryBody_delete_missing wfDir i st it :
  getNodeParameter this "query_type" i "AUTO" = "DELETE_DATABASE" ->
  items st !! i = Some it ->
  fs_existsSync (dbPathOf this wfDir i) (world st) = false ->
  tryBody this wfDir i st =
    (Normal tt,
     set_items (<[i := with_json (missing_payload (getNodeParameter this "dbName" i "")) it]>
                  (items st)) st).
Proof.
  unfold dbPathOf. intros Hq Hi He.
  unfold tryBody. rewrite Hq, String.eqb_refl.
  unfold bind, existsSync. rewrite He.
  by erewrite setItemJson_Some by exact Hi.
Qed.

(** Any other kind, and [JSON.parse] throws. *)
Lemma tryBody_parse_error wfDir i st e :
  String.eqb (getNodeParameter this "query_type" i "AUTO") "DELETE_DATABASE" = false ->
  JSON_parse (getNodeParameter this "args" i "{}") = inl e ->
  tryBody this wfDir i st = (Throw e, st).
Proof.
  intros Hq Hp. unfold tryBody. rewrite Hq. unfold bind, parse. by rewrite Hp.
Qed.

(** [SELECT], and [db.all] hands back rows. *)
Lemma tryBody_select wfDir i st args rows w' :
  getNodeParameter this "query_type" i "AUTO" = "SELECT" ->
  JSON_parse (getNodeParameter this "args" i "{}") = inr args ->
  Database_all (dbPathOf this wfDir i) (getNodeParameter this "query" i "") args
    (Database_new (dbPathOf this wfDir i) (world st)) = (inr rows, w') ->
  let dbPath := dbPathOf this wfDir i in
  let query := getNodeParameter this "query" i "" in
  tryBody this wfDir i st =
    (Normal tt,
     {| items := items st;
        spreadResults := spreadResults st ++ map json_only rows;
        world := Database_close dbPath w';
        trace := trace st ++ [EvDatabaseNew dbPath;
                              EvDatabaseAll dbPath query args (inr rows);
                              EvDatabaseClose dbPath] |}).
Proof.
  unfold dbPathOf. intros Hq Hp Ha. simpl.
  unfold tryBody. rewrite Hq. simpl String.eqb.
  unfold bind, parse, newDatabase, all, pushAll, close. rewrite Hp. simpl.
  rewrite Ha. simpl. state_eq.
Qed.

(** [SELECT], and [db.all] fails. *)
Lemma tryBody_select_error wfDir i st args e w' :
  getNodeParameter this "query_type" i "AUTO" = "SELECT" ->
  JSON_parse (getNodeParameter this "args" i "{}") = inr args ->
  Database_all (dbPathOf this wfDir i) (getNodeParameter this "query" i "") args
    (Database_new (dbPathOf this wfDir i) (world st)) = (inl e, w') ->
  let dbPath := dbPathOf this wfDir i in
  let query := getNodeParameter this "query" i "" in
  tryBody this wfDir i st =
    (Throw e,
     {| items := items st;
        spreadResults := spreadResults st;
        world := w';
        trace := trace st ++ [EvDatabaseNew dbPath;
                              EvDatabaseAll dbPath query args (inl e)] |}).
Proof.
  unfold dbPathOf. intros Hq Hp Ha. simpl.
  unfold tryBody. rewrite Hq. simpl String.eqb.
  unfold bind, parse, newDatabase, all. rewrite Hp. simpl.
  rewrite Ha. simpl. state_eq.
Qed.

(** A mutating kind, and [db.run] succeeds. *)
Lemma tryBody_mutating wfDir i st it args w' :
  mutating (getNodeParameter this "query_type" i "AUTO") = true ->
  items st !! i = Some it ->
  JSON_parse (getNodeParameter this "args" i "{}") = inr args ->
  Database_run (dbPathOf this wfDir i) (getNodeParameter this "query" i "") args
    (Database_new (dbPathOf this wfDir i) (world st)) = (None, w') ->
  let dbPath := dbPathOf this wfDir i in
  let query := getNodeParameter this "query" i "" in
  tryBody this wfDir i st =
    (Normal tt,
     {| items := <[i := with_json changes_1 it]> (items st);
        spreadResults := spreadResults st;
        world := Database_close dbPath w';
        trace := trace st ++ [EvDatabaseNew dbPath;
                              EvDatabaseRun dbPath query args None;
                              EvDatabaseClose dbPath] |}).
Proof.
  unfold dbPathOf. intros [Hd Hs]%mutating_tests Hi Hp Hr. simpl.
  unfold tryBody. rewrite Hd, Hs.
  unfold bind, parse, newDatabase, run, setItemJson, close. rewrite Hp. simpl.
  rewrite Hr. unfold external. simpl. rewrite Hi. state_eq.
Qed.

(** A mutating kind, and [db.run] fails. *)
Lemma tryBody_mutating_error wfDir i st args e w' :
  mutating (getNodeParameter this "query_type" i "AUTO") = true ->
  JSON_parse (getNodeParameter this "args" i "{}") = inr args ->
  Database_run (dbPathOf this wfDir i) (getNodeParameter this "query" i "") args
    (Database_new (dbPathOf this wfDir i) (world st)) = (Some e, w') ->
  let dbPath := dbPathOf this wfDir i in
  let query := getNodeParameter this "query" i "" in
  tryBody this wfDir i st =
    (Throw e,
     {| items := items st;
        spreadResults := spreadResults st;
        world := w';
        trace := trace st ++ [EvDatabaseNew dbPath;
                              EvDatabaseRun dbPath query args (Some e)] |}).
Proof.
  unfold dbPathOf. intros [Hd Hs]%mutating_tests Hp Hr. simpl.
  unfold tryBody. rewrite Hd, Hs.
  unfold bind, parse, newDatabase, run. rewrite Hp. simpl.
  rewrite Hr. simpl. state_eq.
Qed.

(** When the [try] block throws on an item of the list, no payload has
    been written and nothing has been spread. *)
Lemma tryBody_Throw wfDir i st e st1 :
  is_Some (items st !! i) ->
  tryBody this wfDir i st = (Throw e, st1) ->
  items st1 = items st /\ spreadResults st1 = spreadResults st.
Proof.
  intros [it Hi].
  unfold tryBody, bind, existsSync, unlinkSync, setItemJson, parse, newDatabase,
    all, run, pushAll, close, external, set_items, set_spreadResults.
  repeat case_match; intros ?; simplify_eq; simpl in *; (done || congruence).
Qed.

(** The [catch] clause. *)
Lemma iteration_Normal wfDir i st st' :
  tryBody this wfDir i st = (Normal tt, st') ->
  iteration this wfDir i st = (Normal tt, st').
Proof. intros H. unfold iteration, try_catch. by rewrite H. Qed.

Lemma iteration_rethrow wfDir i st e st1 :
  continueOnFail this = false ->
  tryBody this wfDir i st = (Throw e, st1) ->
  iteration this wfDir i st = (Throw e, st1).
Proof. intros Hc H. unfold iteration, try_catch. by rewrite H, Hc. Qed.

Lemma iteration_caught wfDir i st e st1 it :
  continueOnFail this = true ->
  items st !! i = Some it ->
  tryBody this wfDir i st = (Throw e, st1) ->
  iteration this wfDir i st =
    (Normal tt, set_items (<[i := with_json (error_payload e) it]> (items st1)) st1).
Proof.
  intros Hc Hi H. unfold iteration, try_catch. rewrite H, Hc.
  destruct (tryBody_Throw _ _ _ _ _ (ltac:(by eexists)) H) as [I1 _].
  apply setItemJson_Some. by rewrite I1.
Qed.

End Branches.

(** ** The whole invocation around one item *)

Section Around.

Context {W : Type} `{RT : Runtime W}.
Variable this : IExecuteFunctions.
Implicit Types (st : State W) (w : W).

(** What [execute] returns, and the state it returns in. *)
Lemma execute_Normal w out st :
  execute this w = (Normal out, st) ->
  out = [if 0 <? length (spreadResults st) then RefSpreadResults else RefItems]
  /\ same_binary (initialState this w) st
  /\ flushed st.
Proof.
  intros H.
  assert (R := execute_reach this w 0 ltac:(lia)). rewrite H in R.
  destruct (reach this w 0) as [[wfDir|e] st0] eqn:E0; [|done].
  destruct (reach_spec _ _ _ _ _ E0) as (B0 & F0 & _).
  symmetry in R. destruct (resume_spec _ _ _ _ _ _ R) as (B1 & L1 & _ & O).
  split; [by apply O|].
  split; [exact (same_binary_trans _ _ _ B0 B1) | by eapply flushed_logged].
Qed.

Lemma execute_output_items w out st :
  execute this w = (Normal out, st) ->
  spreadResults st = [] ->
  output (execute this w) = Some [items st].
Proof.
  intros H E. destruct (execute_Normal _ _ _ H) as (-> & _).
  rewrite H, E. done.
Qed.

Lemma execute_output_spread w out st :
  execute this w = (Normal out, st) ->
  spreadResults st <> [] ->
  output (execute this w) = Some [spreadResults st].
Proof.
  intros H E. destruct (execute_Normal _ _ _ H) as (-> & _).
  rewrite H. unfold output.
  destruct (spreadResults st) as [|r rs] eqn:ES; [done|].
  simpl. by rewrite ES.
Qed.

(** The loop has arrived at item [i] and its turn ends normally: the
    invocation goes on with the next item. *)
Lemma execute_next w i wfDir st st' :
  reach this w i = (Normal wfDir, st) ->
  i < length (getInputData this) ->
  iteration this wfDir i st = (Normal tt, st') ->
  execute this w = resume this wfDir (S i) st'.
Proof.
  intros R Hi It.
  rewrite (execute_reach this w i) by lia. rewrite R.
  rewrite resume_step by (by rewrite (reach_length _ _ _ _ _ R)).
  by rewrite It.
Qed.

(** Its turn ends by throwing: so does the invocation, in that state. *)
Lemma execute_abort w i wfDir st e st' :
  reach this w i = (Normal wfDir, st) ->
  i < length (getInputData this) ->
  iteration this wfDir i st = (Throw e, st') ->
  execute this w = (Throw e, st').
Proof.
  intros R Hi It.
  rewrite (execute_reach this w i) by lia. rewrite R.
  rewrite resume_step by (by rewrite (reach_length _ _ _ _ _ R)).
  by rewrite It.
Qed.

(** What the rest of the invocation leaves of the state after item [i]:
    the item, and the rows spread so far, in front of the later ones. *)
Lemma execute_after w i wfDir st st' out stf :
  reach this w i = (Normal wfDir, st) ->
  i < length (getInputData this) ->
  iteration this wfDir i st = (Normal tt, st') ->
  execute this w = (Normal out, stf) ->
  items stf !! i = items st' !! i
  /\ exists later, spreadResults stf = spreadResults st' ++ later.
Proof.
  intros R Hi It H.
  rewrite (execute_next _ _ _ _ _ R Hi It) in H.
  destruct (resume_spec _ _ _ _ _ _ H) as (_ & (evs & _ & S & _) & K & _).
  split; [apply K; lia | by eexists].
Qed.


End Around.

(** ** Paths *)

Section Paths.

Implicit Types (s t p seg : string) (segs : list string).

Example path_resolve_wf1 :
  path.resolve "/home/node" ["./databases"; "wf1"] = "/home/node/databases/wf1".
Proof. reflexivity. Qed.

Example path_join_orders :
  path.join ["/home/node/databases/wf1"; "orders" +:+ ".db"]
  = "/home/node/databases/wf1/orders.db".
Proof. reflexivity. Qed.

Example path_resolve_above_root :
  path.resolve "/home/node" ["./databases"; "../../../../etc"] = "/etc".
Proof. reflexivity. Qed.

Example path_join_normalises :
  path.join ["/home/node/databases/wf1"; "../wf2/orders" +:+ ".db"]
  = "/home/node/databases/wf2/orders.db".
Proof. reflexivity. Qed.

Lemma append_nil_l s : "" +:+ s = s.
Proof. reflexivity. Qed.

Lemma append_cons c s t : String c s +:+ t = String c (s +:+ t).
Proof. reflexivity. Qed.

(** [simpl] leaves [+:+] alone; this pushes it through the characters. *)
Ltac str := repeat (progress (rewrite ?append_cons, ?append_nil_l)).

Lemma append_assoc s t u : (s +:+ t) +:+ u = s +:+ t +:+ u.
Proof. induction s as [|c s IH]; str; congruence. Qed.

Lemma length_append s t : String.length (s +:+ t) = String.length s + String.length t.
Proof. induction s as [|c s IH]; str; simpl; congruence. Qed.

Lemma eqb_length s t : String.length s <> String.length t -> String.eqb s t = false.
Proof. intros H. apply String.eqb_neq. by intros ->. Qed.

Lemma append_nonempty s c t : String.eqb (s +:+ String c t) "" = false.
Proof. destruct s; by str. Qed.

(** *** Segments *)

Lemma split_nonempty s : path.split s <> [].
Proof.
  destruct s as [|c s]; simpl; [done|].
  destruct (path.is_sep c); [done|]. by destruct (path.split s).
Qed.

Lemma split_app s t :
  path.split (s +:+ String "/" t) = path.split s ++ path.split t.
Proof.
  induction s as [|c s IH]; str; simpl; [done|].
  rewrite IH. destruct (path.is_sep c); [done|].
  pose proof (split_nonempty s). by destruct (path.split s).
Qed.

Lemma split_sepfree s : path.sepfree s = true -> path.split s = [s].
Proof.
  induction s as [|c s IH]; simpl; [done|].
  intros [Hc Hs]%andb_true_iff. apply negb_true_iff in Hc.
  by rewrite Hc, IH.
Qed.

Lemma sepfree_split s : Forall (fun seg => path.sepfree seg = true) (path.split s).
Proof.
  induction s as [|c s IH]; simpl; [by repeat constructor|].
  destruct (path.is_sep c) eqn:Hc; [by constructor|].
  destruct (path.split s) as [|seg segs]; [by repeat constructor; simpl; rewrite Hc|].
  inversion_clear IH as [|? ? Hseg Hsegs].
  constructor; [|done]. simpl. by rewrite Hc, Hseg.
Qed.

Lemma sepfree_append s t :
  path.sepfree (s +:+ t) = path.sepfree s && path.sepfree t.
Proof.
  induction s as [|c s IH]; str; simpl; [done|]. by rewrite IH, andb_assoc.
Qed.

Lemma unsplit_cons seg seg' segs :
  path.unsplit (seg :: seg' :: segs) = seg +:+ String "/" (path.unsplit (seg' :: segs)).
Proof. done. Qed.

Lemma split_unsplit segs :
  segs <> [] ->
  Forall (fun seg => path.sepfree seg = true) segs ->
  path.split (path.unsplit segs) = segs.
Proof.
  induction segs as [|seg [|seg' segs] IH]; [done | |].
  - intros _ H. inversion_clear H. by apply split_sepfree.
  - intros _ H. inversion_clear H as [|? ? Hseg Hsegs].
    rewrite unsplit_cons, split_app, IH by done.
    by rewrite split_sepfree.
Qed.

Lemma unsplit_snoc segs seg :
  segs <> [] -> path.unsplit (segs ++ [seg]) = path.unsplit segs +:+ String "/" seg.
Proof.
  induction segs as [|a [|b segs] IH]; [done | done |].
  intros _. change ((a :: b :: segs) ++ [seg]) with (a :: (b :: segs) ++ [seg]).
  rewrite (unsplit_cons a b segs).
  change (path.unsplit (a :: (b :: segs) ++ [seg]))
    with (a +:+ String "/" (path.unsplit ((b :: segs) ++ [seg]))).
  rewrite IH by done. rewrite append_assoc. by str.
Qed.

Lemma unsplit_nonempty segs :
  segs <> [] ->
  Forall (fun seg => path.named seg = true) segs ->
  String.eqb (path.unsplit segs) "" = false.
Proof.
  destruct segs as [|a [|b segs]]; [done | |].
  - intros _ H. inversion_clear H as [|? ? Ha _].
    unfold path.named in Ha. rewrite !andb_true_iff, !negb_true_iff in Ha. tauto.
  - intros _ _. rewrite unsplit_cons. apply append_nonempty.
Qed.

(** *** Normalisation *)

(** Without a [..] among them, the segments are pushed one by one. *)
Lemma normalize_fold_simple allowAboveRoot segs res :
  Forall (fun seg => String.eqb seg ".." = false) segs ->
  fold_left (path.normalizeStep allowAboveRoot) segs res
  = rev (List.filter path.kept segs) ++ res.
Proof.
  intros H. revert res. induction H as [|seg segs Hseg _ IH]; intros res; [done|].
  simpl. rewrite IH. unfold path.normalizeStep, path.kept. rewrite Hseg.
  destruct (String.eqb seg "" || String.eqb seg "."); simpl; [done|].
  by rewrite <- app_assoc.
Qed.

Lemma normalizeSegments_app segs1 segs2 :
  Forall (fun seg => String.eqb seg ".." = false) segs2 ->
  path.normalizeSegments false (segs1 ++ segs2)
  = path.normalizeSegments false segs1 ++ List.filter path.kept segs2.
Proof.
  intros H. unfold path.normalizeSegments.
  rewrite fold_left_app, normalize_fold_simple by done.
  by rewrite rev_app_distr, rev_involutive.
Qed.

Lemma named_inv seg :
  path.named seg = true ->
  String.eqb seg "" = false /\ String.eqb seg "." = false /\ String.eqb seg ".." = false.
Proof. unfold path.named. rewrite !andb_true_iff, !negb_true_iff. tauto. Qed.

Lemma normalize_fold_good segs res :
  Forall (fun seg => path.sepfree seg = true) segs ->
  Forall path.entry res ->
  Forall path.entry (fold_left (path.normalizeStep false) segs res).
Proof.
  intros H. revert res. induction H as [|seg segs Hseg _ IH]; intros res Hres; [done|].
  simpl. apply IH. unfold path.normalizeStep.
  destruct (String.eqb seg "") eqn:E1; [done|].
  destruct (String.eqb seg ".") eqn:E2; [done|]. simpl.
  destruct (String.eqb seg "..") eqn:E3.
  - destruct Hres as [|top below Htop Hbelow]; [by constructor|].
    destruct (String.eqb top ".."); [by constructor | done].
  - constructor; [|done]. split; [done|].
    unfold path.named. by rewrite E1, E2, E3.
Qed.

Lemma directories_good p : Forall path.entry (path.directories p).
Proof.
  unfold path.directories, path.normalizeSegments.
  apply Forall_rev, normalize_fold_good; [apply sepfree_split | done].
Qed.

Lemma filter_kept_good segs : Forall path.entry segs -> List.filter path.kept segs = segs.
Proof.
  induction 1 as [|seg segs [_ (E1 & E2 & _)%named_inv] _ IH]; [done|].
  simpl. unfold path.kept at 1. rewrite E1, E2. simpl. by rewrite IH.
Qed.

Lemma good_not_dotdot segs :
  Forall path.entry segs -> Forall (fun seg => String.eqb seg ".." = false) segs.
Proof.
  intros H. eapply Forall_impl; [exact H|].
  by intros seg [_ (_ & _ & E)%named_inv].
Qed.

(** *** A database name with its extension *)

Lemma named_db name : path.named (name +:+ ".db") = true.
Proof.
  unfold path.named.
  rewrite !eqb_length; [done | | |]; rewrite length_append; simpl; lia.
Qed.

Lemma sepfree_db name : path.sepfree name = true -> path.sepfree (name +:+ ".db") = true.
Proof. intros H. by rewrite sepfree_append, H. Qed.

Lemma endsWithSep_append s t :
  String.eqb t "" = false -> path.endsWithSep (s +:+ t) = path.endsWithSep t.
Proof.
  intros Ht. induction s as [|c s IH]; str; [done|].
  simpl. destruct (s +:+ t) as [|c' r] eqn:E; [|exact IH].
  destruct s; [|done]. rewrite append_nil_l in E. by subst t.
Qed.

(** *** [resolve] and [join] *)

Lemma isAbsolute_nonempty p : path.isAbsolute p = true -> String.eqb p "" = false.
Proof. by destruct p. Qed.

(** [path.resolve(a, b)] below an absolute working directory. *)
Lemma resolve_two cwd a b :
  path.isAbsolute cwd = true ->
  String.eqb a "" = false -> path.isAbsolute a = false ->
  String.eqb b "" = false -> path.isAbsolute b = false ->
  path.resolve cwd [a; b]
  = "/" +:+ path.unsplit (path.normalizeSegments false
                            (path.split cwd ++ path.split a ++ path.split b ++ [""])).
Proof.
  intros Hcwd Ha Ha' Hb Hb'.
  unfold path.resolve. simpl. rewrite Hb, Hb', Ha, Ha'.
  rewrite (isAbsolute_nonempty _ Hcwd), Hcwd. simpl.
  unfold path.normalizeString. str. by rewrite !split_app.
Qed.

(** [path.resolve(a)] below an absolute working directory. *)
Lemma resolve_one cwd a :
  path.isAbsolute cwd = true ->
  String.eqb a "" = false -> path.isAbsolute a = false ->
  path.resolve cwd [a]
  = "/" +:+ path.unsplit (path.normalizeSegments false
                            (path.split cwd ++ path.split a ++ [""])).
Proof.
  intros Hcwd Ha Ha'.
  unfold path.resolve. simpl. rewrite Ha, Ha'.
  rewrite (isAbsolute_nonempty _ Hcwd), Hcwd. simpl.
  unfold path.normalizeString. str. by rewrite !split_app.
Qed.

(** [path.join(dir, name + ".db")] for a normalised absolute [dir]. *)
Lemma join_db segs name :
  segs <> [] ->
  Forall path.entry segs ->
  path.sepfree name = true ->
  path.join ["/" +:+ path.unsplit segs; name +:+ ".db"]
  = "/" +:+ path.unsplit (segs ++ [name +:+ ".db"]).
Proof.
  intros Hne Hgood Hname.
  set (db := name +:+ ".db").
  assert (Hdb : String.eqb db "" = false).
  { apply eqb_length. unfold db. rewrite length_append. simpl. lia. }
  assert (Hall : Forall path.entry (segs ++ [db])).
  { apply Forall_app. split; [done|]. repeat constructor.
    - by apply sepfree_db.
    - apply named_db. }
  set (p := ("/" +:+ path.unsplit segs) +:+ String "/" db).
  assert (Hjoin : path.join ["/" +:+ path.unsplit segs; db] = path.normalize p).
  { unfold path.join. simpl. by rewrite Hdb. }
  assert (H1 : String.eqb p "" = false) by apply append_nonempty.
  assert (H2 : path.isAbsolute p = true) by (unfold p; by str).
  assert (H3 : path.endsWithSep p = false).
  { unfold p. rewrite endsWithSep_append by done.
    change (String "/" db) with ("/" +:+ db).
    rewrite endsWithSep_append by done.
    unfold db. by rewrite endsWithSep_append. }
  assert (H4 : path.normalizeString p false = path.unsplit (segs ++ [db])).
  { unfold path.normalizeString, p. f_equal.
    rewrite split_app. str. simpl path.split at 1.
    rewrite split_unsplit, (split_sepfree db).
    - change (("" :: segs) ++ [db]) with ([] ++ "" :: segs ++ [db]).
      rewrite normalizeSegments_app.
      + simpl. by apply filter_kept_good.
      + constructor; [done|]. by apply good_not_dotdot.
    - by apply sepfree_db.
    - done.
    - eapply Forall_impl; [exact Hgood|]. by intros ? [? _]. }
  assert (H5 : String.eqb (path.unsplit (segs ++ [db])) "" = false).
  { apply unsplit_nonempty; [by destruct segs|].
    eapply Forall_impl; [exact Hall|]. by intros ? [_ ?]. }
  rewrite Hjoin. unfold path.normalize. cbv zeta.
  rewrite H1, H2, H3. simpl negb. by rewrite H4, H5.
Qed.

(** *** The directory of a workflow and the file of a database *)

Lemma sepfree_relative seg :
  path.sepfree seg = true -> path.isAbsolute seg = false.
Proof.
  destruct seg as [|c seg]; [done|]. simpl.
  intros [Hc _]%andb_true_iff. by apply negb_true_iff.
Qed.

(** [path.resolve('./databases', workflowId)] *)
Lemma resolve_workflowDir cwd wfid :
  path.isAbsolute cwd = true ->
  path.sepfree wfid = true ->
  path.named wfid = true ->
  path.resolve cwd ["./databases"; wfid]
  = "/" +:+ path.unsplit (path.directories cwd ++ ["databases"; wfid]).
Proof.
  intros Hcwd Hsep Hnamed.
  destruct (named_inv _ Hnamed) as (E1 & E2 & E3).
  rewrite resolve_two; [|done|done|done|done|by apply sepfree_relative].
  replace (path.split "./databases") with ["."; "databases"] by (by vm_compute).
  rewrite (split_sepfree wfid) by done.
  rewrite normalizeSegments_app by (by repeat constructor).
  do 2 f_equal. simpl. unfold path.kept at 1. by rewrite E1, E2.
Qed.

(** [path.join(workflowDir, dbName + '.db')] *)
Lemma join_dbPath cwd wfid name :
  path.isAbsolute cwd = true ->
  path.sepfree wfid = true ->
  path.named wfid = true ->
  path.sepfree name = true ->
  let wfDir := path.resolve cwd ["./databases"; wfid] in
  path.join [wfDir; name +:+ ".db"]
  = "/" +:+ path.unsplit (path.directories cwd ++ ["databases"; wfid; name +:+ ".db"])
  /\ path.join [wfDir; name +:+ ".db"] = wfDir +:+ "/" +:+ name +:+ ".db".
Proof.
  intros Hcwd Hsep Hnamed Hname wfDir. unfold wfDir.
  rewrite resolve_workflowDir by done.
  set (segs := path.directories cwd ++ ["databases"; wfid]).
  assert (Hsegs : segs <> []) by (unfold segs; by destruct (path.directories cwd)).
  rewrite join_db; [|done| |done].
  - split.
    + unfold segs. by rewrite <- app_assoc.
    + rewrite unsplit_snoc by done. by str.
  - apply Forall_app. split; [apply directories_good|].
    by repeat constructor.
Qed.


(** [path.resolve('./databases/default_workflow')] *)
Lemma resolve_default_workflow cwd :
  path.isAbsolute cwd = true ->
  path.resolve cwd ["./databases/default_workflow"]
  = "/" +:+ path.unsplit (path.directories cwd ++ ["databases"; "default_workflow"]).
Proof.
  intros Hcwd. rewrite resolve_one by done.
  replace (path.split "./databases/default_workflow")
    with ["."; "databases"; "default_workflow"] by (by vm_compute).
  rewrite normalizeSegments_app by (by repeat constructor). done.
Qed.

End Paths.

(** ** Hosts that run the same [try] block *)

Section Extensionality.

Context {W : Type} `{RT : Runtime W}.
Variables this1 this2 : IExecuteFunctions.
Hypothesis same_input : getInputData this1 = getInputData this2.
Hypothesis same_workflow : getWorkflow this1 = getWorkflow this2.
Hypothesis same_continue : continueOnFail this1 = continueOnFail this2.
Hypothesis same_tryBody :
  forall wfDir i (st : State W), tryBody this1 wfDir i st = tryBody this2 wfDir i st.

Lemma iteration_ext wfDir i (st : State W) :
  iteration this1 wfDir i st = iteration this2 wfDir i st.
Proof using same_continue same_tryBody.
  unfold iteration, try_catch. by rewrite same_tryBody, same_continue.
Qed.

Lemma forLoop_ext wfDir indices (st : State W) :
  forLoop this1 wfDir indices st = forLoop this2 wfDir indices st.
Proof using same_continue same_tryBody.
  revert st. induction indices as [|i later IH]; intros st; simpl; [done|].
  unfold bind. rewrite iteration_ext.
  destruct (iteration this2 wfDir i st) as [[[]|e] st1]; [apply IH | done].
Qed.

Lemma workflowId_ext : workflowId this1 = workflowId this2.
Proof using same_workflow. unfold workflowId. by rewrite same_workflow. Qed.

Lemma ensureWorkflowDir_ext (st : State W) :
  ensureWorkflowDir this1 st = ensureWorkflowDir this2 st.
Proof using same_workflow.
  rewrite !ensureWorkflowDir_cases. unfold workflowDir. by rewrite workflowId_ext.
Qed.

Lemma resume_ext wfDir k (st : State W) :
  resume this1 wfDir k st = resume this2 wfDir k st.
Proof using same_continue same_tryBody.
  unfold resume, bind, itemsLength. by rewrite forLoop_ext.
Qed.

Lemma execute_ext (w : W) : execute this1 w = execute this2 w.
Proof using same_input same_workflow same_continue same_tryBody.
  rewrite !(execute_reach _ w 0) by lia.
  unfold reach, initialState, bind. simpl.
  rewrite same_input, ensureWorkflowDir_ext.
  destruct (ensureWorkflowDir this2 _) as [[wfDir|e] st0]; [|done].
  apply resume_ext.
Qed.

End Extensionality.

(** ** The claims *)

Section Claims.

Context {W : Type} `{RT : Runtime W}.
Implicit Types (this : IExecuteFunctions) (st : State W) (w : W).

(** C1. When [execute] returns, the array it returns is [spreadResults]
    if that array is non-empty at the end of the loop, and the input
    array [items] itself otherwise.  [spreadResults] holds nothing but
    the rows the [SELECT] items fetched, so in the first case the
    payloads written into [items] (status records of [DELETE_DATABASE],
    [{changes: 1}], error records) are not part of the output.  In the
    second case the output is the input array, whose items differ from
    the input only in their payloads. *)
Theorem C1_final_output_selection this w out st :
  execute this w = (Normal out, st) ->
  flushed st
  /\ map binary (items st) = map binary (getInputData this)
  /\ (spreadResults st <> [] ->
        out = [RefSpreadResults]
        /\ output (execute this w) = Some [spreadResults st])
  /\ (spreadResults st = [] ->
        out = [RefItems]
        /\ output (execute this w) = Some [items st]).
Proof.
  intros H. destruct (execute_Normal _ _ _ _ H) as (O & B & F).
  split; [done|]. split; [exact B|].
  split; intros E.
  - split; [|by eapply execute_output_spread].
    rewrite O. by destruct (spreadResults st).
  - split; [|by eapply execute_output_items].
    by rewrite O, E.
Qed.

(** C2, as amended.  The loop has arrived at an item whose kind is
    neither [SELECT] nor [DELETE_DATABASE], its arguments parse and
    [db.run] reports no error.  Then the turn ends normally, the payload
    of the item is [{changes: 1}] whatever the statement did to the
    database, and nothing is spread.  If the invocation returns, the
    payload is still there, and the item is in the output, at its own
    position, when no [SELECT] item has fetched a row. *)
Theorem C2_mutating_payload this w i wfDir st it args w' :
  reach this w i = (Normal wfDir, st) ->
  getInputData this !! i = Some it ->
  mutating (getNodeParameter this "query_type" i "AUTO") = true ->
  JSON_parse (getNodeParameter this "args" i "{}") = inr args ->
  Database_run (dbPathOf this wfDir i) (getNodeParameter this "query" i "") args
    (Database_new (dbPathOf this wfDir i) (world st)) = (None, w') ->
  exists st',
    iteration this wfDir i st = (Normal tt, st')
    /\ items st' = <[i := with_json changes_1 it]> (items st)
    /\ spreadResults st' = spreadResults st
    /\ forall out stf,
         execute this w = (Normal out, stf) ->
         items stf !! i = Some (with_json changes_1 it)
         /\ length (items stf) = length (getInputData this)
         /\ (spreadResults stf = [] -> output (execute this w) = Some [items stf]).
Proof.
  intros R Hin Hq Hp Hr.
  assert (Hi : items st !! i = Some it) by (by rewrite (reach_item _ _ _ _ _ R)).
  assert (Hlt : i < length (getInputData this)) by (by eapply lookup_lt_Some).
  pose proof (tryBody_mutating this wfDir i st it args w' Hq Hi Hp Hr) as T.
  simpl in T. apply iteration_Normal in T.
  eexists. split; [exact T|]. split; [done|]. split; [done|].
  intros out stf H.
  destruct (execute_after _ _ _ _ _ _ _ _ R Hlt T H) as (K & _).
  destruct (execute_Normal _ _ _ _ H) as (_ & B & _).
  split; [|split].
  - rewrite K. simpl. apply list_lookup_insert_eq. by eapply lookup_lt_Some.
  - by apply same_binary_length in B.
  - by eapply execute_output_items.
Qed.

(** C3, as amended.  The loop has arrived at a [SELECT] item, its
    arguments parse and [db.all] hands back [rows].  Then the turn ends
    normally, one record per row is appended to [spreadResults], each
    holding that row, in the order of the rows, and the payload of the
    item is left alone.  If the invocation returns, [spreadResults] is
    what the earlier items spread, then these rows, then what the later
    items spread; it is the output whenever it is not empty. *)
Theorem C3_select_spreads_rows this w i wfDir st args rows w' :
  reach this w i = (Normal wfDir, st) ->
  i < length (getInputData this) ->
  getNodeParameter this "query_type" i "AUTO" = "SELECT" ->
  JSON_parse (getNodeParameter this "args" i "{}") = inr args ->
  Database_all (dbPathOf this wfDir i) (getNodeParameter this "query" i "") args
    (Database_new (dbPathOf this wfDir i) (world st)) = (inr rows, w') ->
  exists st',
    iteration this wfDir i st = (Normal tt, st')
    /\ spreadResults st' = spreadResults st ++ map json_only rows
    /\ length (spreadResults st') = length (spreadResults st) + length rows
    /\ items st' = items st
    /\ forall out stf,
         execute this w = (Normal out, stf) ->
         (exists later,
            spreadResults stf = spreadResults st ++ map json_only rows ++ later)
         /\ flushed stf
         /\ (spreadResults stf <> [] ->
               output (execute this w) = Some [spreadResults stf]).
Proof.
  intros R Hlt Hq Hp Ha.
  pose proof (tryBody_select this wfDir i st args rows w' Hq Hp Ha) as T.
  simpl in T. apply iteration_Normal in T.
  eexists. split; [exact T|]. simpl.
  split; [done|]. split; [by rewrite length_app, length_map|]. split; [done|].
  intros out stf H.
  destruct (execute_after _ _ _ _ _ _ _ _ R Hlt T H) as (_ & later & L).
  destruct (execute_Normal _ _ _ _ H) as (_ & _ & F).
  split; [|split].
  - exists later. rewrite L. simpl. by rewrite <- app_assoc.
  - done.
  - by eapply execute_output_spread.
Qed.

(** C4, as amended.  The loop has arrived at a [DELETE_DATABASE] item.
    If the file of the database exists and [unlinkSync] returns, the
    file is gone, the payload of the item is the success record, and the
    only call made is that [unlinkSync].  If the file does not exist,
    the payload is the failure record, and neither the world nor the
    trace changes.  In both cases no database is opened and the
    invocation goes on with the next item.  If the file exists and
    [unlinkSync] throws, the [try] block throws that error with no
    payload written and no database opened: with continue-on-fail on the
    payload becomes the error record and the invocation goes on with the
    next item, with continue-on-fail off the invocation throws the
    error there. *)
Theorem C4_delete_database {laws : RuntimeLaws W} this w i wfDir st it :
  reach this w i = (Normal wfDir, st) ->
  getInputData this !! i = Some it ->
  getNodeParameter this "query_type" i "AUTO" = "DELETE_DATABASE" ->
  let dbName := getNodeParameter this "dbName" i "" in
  let dbPath := dbPathOf this wfDir i in
  (forall w',
     fs_existsSync dbPath (world st) = true ->
     fs_unlinkSync dbPath (world st) = (None, w') ->
     let st' :=
       {| items := <[i := with_json (deleted_payload dbName) it]> (items st);
          spreadResults := spreadResults st;
          world := w';
          trace := trace st ++ [EvUnlinkSync dbPath None] |} in
     iteration this wfDir i st = (Normal tt, st')
     /\ fs_existsSync dbPath w' = false
     /\ execute this w = resume this wfDir (S i) st')
  /\ (fs_existsSync dbPath (world st) = false ->
      let st' :=
        {| items := <[i := with_json (missing_payload dbName) it]> (items st);
           spreadResults := spreadResults st;
           world := world st;
           trace := trace st |} in
      iteration this wfDir i st = (Normal tt, st')
      /\ execute this w = resume this wfDir (S i) st')
  /\ (forall e w',
        fs_existsSync dbPath (world st) = true ->
        fs_unlinkSync dbPath (world st) = (Some e, w') ->
        let st1 :=
          {| items := items st;
             spreadResults := spreadResults st;
             world := w';
             trace := trace st ++ [EvUnlinkSync dbPath (Some e)] |} in
        tryBody this wfDir i st = (Throw e, st1)
        /\ (continueOnFail this = true ->
            execute this w
            = resume this wfDir (S i)
                (set_items (<[i := with_json (error_payload e) it]> (items st)) st1))
        /\ (continueOnFail this = false -> execute this w = (Throw e, st1))).
Proof.
  intros R Hin Hq dbName dbPath.
  assert (Hi : items st !! i = Some it) by (by rewrite (reach_item _ _ _ _ _ R)).
  assert (Hlt : i < length (getInputData this)) by (by eapply lookup_lt_Some).
  split; [|split].
  - intros w' He Hu st'.
    pose proof (tryBody_delete_existing this wfDir i st it w' Hq Hi He Hu) as T.
    apply iteration_Normal in T. change (iteration this wfDir i st = (Normal (), st')) in T.
    split; [exact T|]. split; [by eapply unlinkSync_removes|].
    by eapply execute_next.
  - intros He st'.
    pose proof (tryBody_delete_missing this wfDir i st it Hq Hi He) as T.
    apply iteration_Normal in T. change (iteration this wfDir i st = (Normal (), st')) in T.
    split; [exact T | by eapply execute_next].
  - intros e w' He Hu st1.
    pose proof (tryBody_delete_failing this wfDir i st e w' Hq He Hu) as T.
    change (tryBody this wfDir i st = (Throw e, st1)) in T.
    split; [exact T|]. split; intros Hc.
    + eapply execute_next; [exact R | exact Hlt |].
      exact (iteration_caught this wfDir i st e st1 it Hc Hi T).
    + eapply execute_abort; [exact R | exact Hlt |].
      by apply iteration_rethrow.
Qed.

(** C5, as amended.  The loop has arrived at an item whose kind is not
    [DELETE_DATABASE] and whose [args] [JSON.parse] rejects, and
    continue-on-fail is off.  Then the invocation throws the error of
    the parser, in the very state in which the loop arrived at the
    item: no call has been made for it, so no database has been opened,
    and this item and the later ones are as they came in.  There is no
    output. *)
Theorem C5_malformed_args_abort this w i wfDir st e :
  reach this w i = (Normal wfDir, st) ->
  i < length (getInputData this) ->
  continueOnFail this = false ->
  getNodeParameter this "query_type" i "AUTO" <> "DELETE_DATABASE" ->
  JSON_parse (getNodeParameter this "args" i "{}") = inl e ->
  execute this w = (Throw e, st)
  /\ output (execute this w) = None
  /\ forall j, i <= j -> items st !! j = getInputData this !! j.
Proof.
  intros R Hlt Hc Hq Hp.
  apply String.eqb_neq in Hq.
  pose proof (tryBody_parse_error this wfDir i st e Hq Hp) as T.
  apply (iteration_rethrow _ _ _ _ _ _ Hc) in T.
  pose proof (execute_abort _ _ _ _ _ _ _ R Hlt T) as E.
  split; [exact E|]. split; [by rewrite E|].
  destruct (reach_spec _ _ _ _ _ R) as (_ & _ & K & _). exact K.
Qed.

(** C6. The loop has arrived at an item, the [try] block throws (the
    lemmas [tryBody_parse_error], [tryBody_select_error],
    [tryBody_mutating_error] and [tryBody_delete_failing] are the ways
    it does) and continue-on-fail is on.  Then the turn ends normally,
    the payload of the item is [{error: <message>}], and the invocation
    goes on with the next item.  If it returns, the payload is still
    there. *)
Theorem C6_continue_on_fail this w i wfDir st it e st1 :
  reach this w i = (Normal wfDir, st) ->
  getInputData this !! i = Some it ->
  continueOnFail this = true ->
  tryBody this wfDir i st = (Throw e, st1) ->
  let st' := set_items (<[i := with_json (error_payload e) it]> (items st1)) st1 in
  iteration this wfDir i st = (Normal tt, st')
  /\ items st' !! i = Some (with_json (error_payload e) it)
  /\ execute this w = resume this wfDir (S i) st'
  /\ forall out stf,
       execute this w = (Normal out, stf) ->
       items stf !! i = Some (with_json (error_payload e) it).
Proof.
  intros R Hin Hc T st'.
  assert (Hi : items st !! i = Some it) by (by rewrite (reach_item _ _ _ _ _ R)).
  assert (Hlt : i < length (getInputData this)) by (by eapply lookup_lt_Some).
  pose proof (iteration_caught this wfDir i st e st1 it Hc Hi T) as It.
  destruct (tryBody_Throw this _ _ _ _ _ (ltac:(by eexists)) T) as [I1 _].
  assert (Hi' : items st' !! i = Some (with_json (error_payload e) it)).
  { simpl. apply list_lookup_insert_eq. rewrite I1. by eapply lookup_lt_Some. }
  split; [exact It|]. split; [exact Hi'|].
  split; [by eapply execute_next|].
  intros out stf H.
  destruct (execute_after _ _ _ _ _ _ _ _ R Hlt It H) as (K & _).
  by rewrite K.
Qed.

(** C7. Two invocations that differ only in the kind of some items, the
    kind being on both sides other than [SELECT] and [DELETE_DATABASE],
    make the same calls, end in the same state and return the same
    result: the kind is only ever compared with ['DELETE_DATABASE'] and
    ['SELECT'], and the query is only ever handed to the driver.  Of the
    kinds the node offers, these are [AUTO], [CREATE], [DELETE], [INSERT]
    and [UPDATE]. *)
Theorem C7_auto_is_mutating this1 this2 w :
  same_but_mutating_kind this1 this2 ->
  execute this1 w = execute this2 w
  /\ List.filter mutating queryTypeOptions
     = ["AUTO"; "CREATE"; "DELETE"; "INSERT"; "UPDATE"].
Proof.
  intros (Hin & Hwf & Hc & Hp).
  split; [|reflexivity].
  apply execute_ext; try done.
  intros wfDir i st. destruct (Hp i) as (Hd & Hq & Ha & Hk).
  unfold tryBody.
  replace (getNodeParameter this1 "dbName" i "")
    with (getNodeParameter this2 "dbName" i "")
    by (unfold getNodeParameter; simpl; by rewrite Hd).
  replace (getNodeParameter this1 "query" i "")
    with (getNodeParameter this2 "query" i "")
    by (unfold getNodeParameter; simpl; by rewrite Hq).
  replace (getNodeParameter this1 "args" i "{}")
    with (getNodeParameter this2 "args" i "{}")
    by (unfold getNodeParameter; simpl; by rewrite Ha).
  destruct Hk as [-> | [[Hd1 Hs1]%mutating_tests [Hd2 Hs2]%mutating_tests]]; [done|].
  by rewrite Hd1, Hs1, Hd2, Hs2.
Qed.


(** C9. The node declares a boolean parameter [spread], and two
    invocations that differ only in the value of that parameter make the
    same calls, end in the same state and return the same result:
    [execute] never reads it. *)
Theorem C9_spread_is_never_read this1 this2 w :
  same_but_spread this1 this2 ->
  execute this1 w = execute this2 w
  /\ output (execute this1 w) = output (execute this2 w)
  /\ In {| name := "spread"; type := "boolean"; default_value := VBool false;
           required := false |} properties.
Proof.
  intros (Hin & Hwf & Hc & Hp).
  assert (E : execute this1 w = execute this2 w);
    [|rewrite E; repeat split; simpl; tauto].
  apply execute_ext; try done.
  intros wfDir i st. destruct (Hp i) as (Hd & Hk & Hq & Ha).
  unfold tryBody, getNodeParameter. simpl.
  by rewrite Hd, Hk, Hq, Ha.
Qed.

(** C10, as amended.  When the host has no workflow descriptor, or the descriptor has
    no [id], a [null] one or the empty string, the identifier is
    ['default_workflow']: the directory of the workflow, which every turn
    of the loop uses, is what [./databases/default_workflow] resolves to
    from the working directory, and the file of a database whose name
    has no separator in it lies in that directory. *)
Theorem C10_default_workflow this :
  (getWorkflow this = None
   \/ exists workflowInfo,
        getWorkflow this = Some workflowInfo
        /\ (id workflowInfo = IdUndefined
            \/ id workflowInfo = IdNull
            \/ id workflowInfo = IdString "")) ->
  workflowId this = "default_workflow"
  /\ (forall w k wfDir st,
        reach this w k = (Normal wfDir, st) ->
        wfDir = path.resolve (process_cwd w) ["./databases"; "default_workflow"])
  /\ forall cwd,
       path.isAbsolute cwd = true ->
       workflowDir this cwd = path.resolve cwd ["./databases/default_workflow"]
       /\ forall i,
            path.sepfree (getNodeParameter this "dbName" i "") = true ->
            dbPathOf this (workflowDir this cwd) i
            = workflowDir this cwd +:+ "/" +:+ getNodeParameter this "dbName" i "" +:+ ".db".
Proof.
  intros Hwf.
  assert (Hid : workflowId this = "default_workflow").
  { unfold workflowId.
    destruct Hwf as [-> | (wf & -> & [-> | [-> | ->]])]; done. }
  split; [done|]. split.
  - intros w k wfDir st R.
    destruct (reach_spec _ _ _ _ _ R) as (_ & _ & _ & D).
    rewrite (D wfDir eq_refl). unfold workflowDir. by rewrite Hid.
  - intros cwd Hcwd. unfold workflowDir, dbPathOf. rewrite Hid. split.
    + rewrite resolve_default_workflow by done.
      by apply resolve_workflowDir.
    + intros i Hname.
      by destruct (join_dbPath cwd "default_workflow"
                     (getNodeParameter this "dbName" i "")) as [_ ->].
Qed.

End Claims.

(** ** The claims on the in-memory runtime *)

Lemma mem_runtime_laws : RuntimeLaws Mem.World.
Proof.
  split.
  - intros p w w'. simpl. unfold Mem.unlinkSync, Mem.existsSync, Mem.mem.
    destruct (existsb (String.eqb p) (Mem.denied w)); [done|].
    destruct (existsb (String.eqb p) (Mem.files w)); [|done].
    intros [= <-]. simpl.
    induction (Mem.files w) as [|q l IH]; simpl; [done|].
    destruct (String.eqb p q) eqn:E; simpl; [done|]. by rewrite E.
  - intros p w w'. simpl. unfold Mem.mkdirSync, Mem.existsSync, Mem.mem.
    destruct (existsb (String.eqb p) (Mem.denied w)); [done|].
    intros [= <-]. simpl. by rewrite String.eqb_refl.
Qed.

(** An [INSERT] and a [SELECT] that fetches two rows: the output is the
    two rows. *)
Lemma C1_witness :
  output (execute (Ex.host false [Ex.insert_order; Ex.select_orders]) Ex.shop)
  = Some [[json_only (Ex.row 1); json_only (Ex.row 2)]].
Proof.
  edestruct (C1_final_output_selection (W:=Mem.World)
               (Ex.host false [Ex.insert_order; Ex.select_orders]) Ex.shop)
    as (_ & _ & [_ O] & _); [vm_compute; reflexivity | by vm_compute |].
  exact O.
Defined.

(** C2 as stated fails: the [INSERT] succeeds and its payload is
    [{changes: 1}], but the [SELECT] after it fetches two rows, so the
    output is those two rows and holds no record for the [INSERT]. *)
Lemma C2_counterexample :
  let this := Ex.host false [Ex.insert_order; Ex.select_orders] in
  mutating (getNodeParameter this "query_type" 0 "AUTO") = true
  /\ In (EvDatabaseRun "/home/node/databases/wf1/orders.db"
           "INSERT INTO orders VALUES (1)" (VObject []) None)
        (trace (snd (execute this Ex.shop)))
  /\ items (snd (execute this Ex.shop)) !! 0 = Some (with_json changes_1 (Ex.input 0))
  /\ output (execute this Ex.shop) = Some [[json_only (Ex.row 1); json_only (Ex.row 2)]]
  /\ ~ In (with_json changes_1 (Ex.input 0)) [json_only (Ex.row 1); json_only (Ex.row 2)].
Proof.
  vm_compute. repeat split; try reflexivity.
  - tauto.
  - intros [H|[H|[]]]; discriminate H.
Qed.

(** An [INSERT] and a [SELECT] that fetches nothing: the output is the
    input list, with [{changes: 1}] in the place of the [INSERT]. *)
Lemma C2_witness :
  output (execute (Ex.host false [Ex.insert_order; Ex.select_nothing]) Ex.shop)
  = Some [[with_json changes_1 (Ex.input 0); Ex.input 1]].
Proof.
  edestruct (C2_mutating_payload (W:=Mem.World)
               (Ex.host false [Ex.insert_order; Ex.select_nothing]) Ex.shop 0)
    as (st' & _ & _ & _ & F);
    [vm_compute; reflexivity ..|].
  edestruct F as (_ & _ & O); [vm_compute; reflexivity|].
  exact (O eq_refl).
Defined.

(** C3 as stated fails: the only item is a [SELECT] that fetches no row,
    and the output is not the empty list of its rows but the input list,
    with the item as it came in. *)
Lemma C3_counterexample :
  let this := Ex.host false [Ex.select_nothing] in
  getNodeParameter this "query_type" 0 "AUTO" = "SELECT"
  /\ trace (snd (execute this Ex.shop))
     = [EvDatabaseNew "/home/node/databases/wf1/orders.db";
        EvDatabaseAll "/home/node/databases/wf1/orders.db"
          "SELECT * FROM orders WHERE id < 0" (VObject []) (inr []);
        EvDatabaseClose "/home/node/databases/wf1/orders.db"]
  /\ output (execute this Ex.shop) = Some [[Ex.input 0]]
  /\ output (execute this Ex.shop) <> Some [[]].
Proof. vm_compute. repeat split; try reflexivity. discriminate. Qed.

(** A [SELECT] that fetches two rows: the output is the two rows. *)
Lemma C3_witness :
  output (execute (Ex.host false [Ex.select_orders]) Ex.shop)
  = Some [[json_only (Ex.row 1); json_only (Ex.row 2)]].
Proof.
  edestruct (C3_select_spreads_rows (W:=Mem.World)
               (Ex.host false [Ex.select_orders]) Ex.shop 0)
    as (st' & _ & _ & _ & _ & F);
    [vm_compute; reflexivity | vm_compute; lia | vm_compute; reflexivity ..|].
  edestruct F as (_ & _ & O); [vm_compute; reflexivity|].
  apply O. by vm_compute.
Defined.

(** Deleting the database [old], which exists, and then the database
    [archive], which does not. *)
Lemma C4_witness :
  let this := Ex.host false [Ex.delete_old; Ex.delete_missing] in
  (exists st',
     iteration this Ex.wf1 0 (initialState this Ex.shop) = (Normal tt, st')
     /\ json <$> items st' !! 0 = Some (deleted_payload "old")
     /\ fs_existsSync "/home/node/databases/wf1/old.db" (world st') = false
     /\ trace st' = [EvUnlinkSync "/home/node/databases/wf1/old.db" None])
  /\ (exists st1 st',
        reach this Ex.shop 1 = (Normal Ex.wf1, st1)
        /\ iteration this Ex.wf1 1 st1 = (Normal tt, st')
        /\ json <$> items st' !! 1 = Some (missing_payload "archive")
        /\ world st' = world st1
        /\ trace st' = trace st1).
Proof.
  intros this. split.
  - edestruct (C4_delete_database (W:=Mem.World) (laws:=mem_runtime_laws) this Ex.shop 0)
      as [E _]; [vm_compute; reflexivity ..|].
    edestruct E as (It & Gone & _); [vm_compute; reflexivity ..|].
    eexists. split; [exact It|]. split; [by vm_compute|]. split; [exact Gone|].
    by vm_compute.
  - edestruct (C4_delete_database (W:=Mem.World) (laws:=mem_runtime_laws) this Ex.shop 1)
      as (_ & E & _); [vm_compute; reflexivity ..|].
    edestruct E as (It & _); [vm_compute; reflexivity|].
    eexists _, _. split; [vm_compute; reflexivity|].
    split; [exact It|]. by vm_compute.
Defined.

(** C4 as stated fails: the file of the database [locked] exists, but
    [unlinkSync] throws on it.  With continue-on-fail off the invocation
    throws that error: the file is still there, the payload of the item
    is the one it came in with, the item after it has not been
    processed, and there is no output.  With continue-on-fail on the
    file is still there and the payload is the error record, not the
    success record. *)
Lemma C4_counterexample :
  let this := Ex.host false [More.delete_locked; Ex.insert_order] in
  let lenient := Ex.host true [More.delete_locked; Ex.insert_order] in
  getNodeParameter this "query_type" 0 "AUTO" = "DELETE_DATABASE"
  /\ dbPathOf this Ex.wf1 0 = More.locked_db
  /\ fs_existsSync More.locked_db Ex.shop = true
  /\ execute this Ex.shop
     = (Throw More.EPERM_locked,
        {| items := getInputData this; spreadResults := []; world := Ex.shop;
           trace := [EvUnlinkSync More.locked_db (Some More.EPERM_locked)] |})
  /\ output (execute this Ex.shop) = None
  /\ fs_existsSync More.locked_db (world (snd (execute lenient Ex.shop))) = true
  /\ output (execute lenient Ex.shop)
     = Some [[with_json (error_payload More.EPERM_locked) (Ex.input 0);
              with_json changes_1 (Ex.input 1)]]
  /\ error_payload More.EPERM_locked <> deleted_payload "locked".
Proof. vm_compute. repeat split; try reflexivity. discriminate. Qed.

(** C5 as stated fails: the [args] of the first item are not JSON and
    continue-on-fail is off, but the item is a [DELETE_DATABASE], which
    never reads [args]: the invocation returns, and the item after it
    has been processed. *)
Lemma C5_counterexample :
  let this := Ex.host false [Ex.delete_old_bad_args; Ex.insert_order] in
  JSON_parse (getNodeParameter this "args" 0 "{}")
    = inl (mkError "Unexpected token in JSON")
  /\ continueOnFail this = false
  /\ output (execute this Ex.shop)
     = Some [[with_json (deleted_payload "old") (Ex.input 0);
              with_json changes_1 (Ex.input 1)]].
Proof. vm_compute. repeat split; reflexivity. Qed.

(** An [INSERT] whose [args] are not JSON and an [INSERT] after it,
    continue-on-fail off: the invocation throws before any call. *)
Lemma C5_witness :
  let this := Ex.host false [Ex.insert_bad_args; Ex.insert_order] in
  execute this Ex.shop
    = (Throw (mkError "Unexpected token in JSON"), initialState this Ex.shop)
  /\ output (execute this Ex.shop) = None.
Proof.
  intros this.
  edestruct (C5_malformed_args_abort (W:=Mem.World) this Ex.shop 0) as (E & O & _);
    [vm_compute; reflexivity | vm_compute; lia | reflexivity
    | by vm_compute | vm_compute; reflexivity |].
  split; [exact E | exact O].
Defined.

(** The same two items, continue-on-fail on: the first item carries the
    error, the second is processed. *)
Lemma C6_witness :
  let this := Ex.host true [Ex.insert_bad_args; Ex.insert_order] in
  exists out stf,
    execute this Ex.shop = (Normal out, stf)
    /\ items stf !! 0
       = Some (with_json (error_payload (mkError "Unexpected token in JSON")) (Ex.input 0))
    /\ items stf !! 1 = Some (with_json changes_1 (Ex.input 1)).
Proof.
  intros this.
  edestruct (C6_continue_on_fail (W:=Mem.World) this Ex.shop 0) as (_ & _ & _ & F);
    [vm_compute; reflexivity ..|].
  eexists _, _. split; [vm_compute; reflexivity|].
  split; [eapply F; vm_compute; reflexivity | by vm_compute].
Defined.

(** The same statement sent as [AUTO] and as [INSERT]. *)
Lemma C7_witness :
  execute (Ex.host false [Ex.auto_insert_order]) Ex.shop
  = execute (Ex.host false [Ex.insert_order]) Ex.shop.
Proof.
  apply (C7_auto_is_mutating (W:=Mem.World)).
  repeat split; try reflexivity.
  all: destruct i as [|[|i]]; try reflexivity;
    first [left; reflexivity | right; split; reflexivity].
Defined.


(** The same two requests with [Spread Result] off and on. *)
Lemma C9_witness :
  execute (Ex.host false [Ex.select_orders; Ex.insert_order]) Ex.shop
  = execute (Ex.host false [Ex.spreading Ex.select_orders;
                            Ex.spreading Ex.insert_order]) Ex.shop.
Proof.
  apply (C9_spread_is_never_read (W:=Mem.World)).
  repeat split; try reflexivity;
    destruct i as [|[|[|i]]]; reflexivity.
Defined.

(** A host without a workflow descriptor, in a process started in
    [/home/node]. *)
Lemma C10_witness :
  workflowId Ex.anonymous = "default_workflow"
  /\ dbPathOf Ex.anonymous (workflowDir Ex.anonymous "/home/node") 0
     = "/home/node/databases/default_workflow/orders.db".
Proof.
  destruct (C10_default_workflow (W:=Mem.World) Ex.anonymous (or_introl eq_refl))
    as (I & _ & D).
  split; [exact I|].
  destruct (D "/home/node" eq_refl) as (_ & P).
  rewrite (P 0 eq_refl). by vm_compute.
Defined.

(** C10 as stated fails: the host knows no workflow, so the identifier
    is [default_workflow], but the item names the database [../shared]:
    the file the invocation opens is [/home/node/databases/shared.db],
    which is not under [/home/node/databases/default_workflow/]. *)
Lemma C10_counterexample :
  let this := More.anonymous_shared in
  getWorkflow this = None
  /\ workflowId this = "default_workflow"
  /\ workflowDir this "/home/node" = "/home/node/databases/default_workflow"
  /\ dbPathOf this (workflowDir this "/home/node") 0 = "/home/node/databases/shared.db"
  /\ String.prefix "/home/node/databases/default_workflow/"
       "/home/node/databases/shared.db" = false
  /\ trace (snd (execute this Ex.shop))
     = [EvMkdirSync "/home/node/databases/default_workflow" true None;
        EvDatabaseNew "/home/node/databases/shared.db";
        EvDatabaseRun "/home/node/databases/shared.db"
          "INSERT INTO orders VALUES (1)" (VObject []) None;
        EvDatabaseClose "/home/node/databases/shared.db"].
Proof. vm_compute. repeat split; reflexivity. Qed.

(** * Further properties of [execute] *)

Section Further.

Context {W : Type} `{RT : Runtime W}.
Implicit Types (this : IExecuteFunctions) (st : State W) (w : W).

(** ** One more turn *)

Lemma reach_0 this w :
  reach this w 0 = ensureWorkflowDir this (initialState this w).
Proof.
  unfold reach, bind. simpl.
  by destruct (ensureWorkflowDir this (initialState this w)) as [[d|e] st0].
Qed.

Lemma reach_S this w k wfDir st r st' :
  reach this w k = (Normal wfDir, st) ->
  iteration this wfDir k st = (r, st') ->
  reach this w (S k)
  = (match r with Normal _ => Normal wfDir | Throw e => Throw e end, st').
Proof.
  unfold reach, bind. intros R It.
  destruct (ensureWorkflowDir this (initialState this w)) as [[d|e] st0]; [|done].
  rewrite seq_S, forLoop_app. unfold bind. simpl.
  destruct (forLoop this d (seq 0 k) st0) as [[[]|e] st1]; [|done].
  injection R as -> ->. unfold bind. rewrite It. by destruct r.
Qed.

(** When [execute] returns, the loop has arrived at every item and
    every turn has ended normally. *)
Lemma execute_all_items this w out stf i :
  execute this w = (Normal out, stf) ->
  i < length (getInputData this) ->
  exists wfDir st st',
    reach this w i = (Normal wfDir, st)
    /\ iteration this wfDir i st = (Normal tt, st').
Proof.
  intros H Hi. rewrite (execute_reach this w i) in H by lia.
  destruct (reach this w i) as [[wfDir|e] st] eqn:R; [|done].
  rewrite resume_step in H by (by rewrite (reach_length _ _ _ _ _ R)).
  destruct (iteration this wfDir i st) as [[[]|e] st'] eqn:It; [|done].
  by exists wfDir, st, st'.
Qed.

Lemma seq_in_range n : Forall (fun i => i < n) (seq 0 n).
Proof. apply Forall_forall. intros i Hi%list_elem_of_In%in_seq. lia. Qed.

(** ** The calls of a turn *)

Lemma iteration_turn this wfDir i st r st' :
  is_Some (items st !! i) ->
  iteration this wfDir i st = (r, st') ->
  exists evs,
    trace st' = trace st ++ evs
    /\ turn_calls (getNodeParameter this "query_type" i "AUTO") (dbPathOf this wfDir i)
         (getNodeParameter this "query" i "") evs.
Proof.
  intros [it Hi]. unfold dbPathOf.
  set (queryType := getNodeParameter this "query_type" i "AUTO").
  assert (Hm : String.eqb queryType "DELETE_DATABASE" = false ->
               String.eqb queryType "SELECT" = false -> mutating queryType = true).
  { unfold mutating. by intros -> ->. }
  unfold iteration, try_catch, throw, tryBody, bind, existsSync, unlinkSync,
    setItemJson, parse, newDatabase, all, run, pushAll, close.
  fold queryType.
  destruct (String.eqb queryType "DELETE_DATABASE") eqn:Hd.
  - apply String.eqb_eq in Hd.
    repeat case_match; intros ?; simplify_eq; simpl in *;
      first [ congruence
            | exists []; split; [by rewrite app_nil_r | constructor]
            | eexists; split; [reflexivity | by constructor] ].
  - destruct (String.eqb queryType "SELECT") eqn:Hs.
    + apply String.eqb_eq in Hs.
      repeat case_match; intros ?; simplify_eq; simpl in *;
        rewrite <- ?app_assoc;
        first [ congruence
              | exists []; split; [by rewrite app_nil_r | constructor]
              | eexists; split; [reflexivity | by constructor] ].
    + specialize (Hm eq_refl eq_refl).
      repeat case_match; intros ?; simplify_eq; simpl in *;
        rewrite <- ?app_assoc;
        first [ congruence
              | exists []; split; [by rewrite app_nil_r | constructor]
              | eexists; split; [reflexivity | by constructor] ].
Qed.

Lemma forLoop_turns this wfDir m k st r st' :
  k + m <= length (items st) ->
  forLoop this wfDir (seq k m) st = (r, st') ->
  exists turns,
    trace st' = trace st ++ concat turns
    /\ length turns <= m
    /\ (r = Normal tt -> length turns = m)
    /\ forall j evs,
         turns !! j = Some evs ->
         turn_calls (getNodeParameter this "query_type" (k + j) "AUTO")
           (dbPathOf this wfDir (k + j)) (getNodeParameter this "query" (k + j) "") evs.
Proof.
  revert k st. induction m as [|m IH]; intros k st Hk; simpl.
  - intros [= <- <-]. exists []. rewrite app_nil_r. by repeat split.
  - unfold bind.
    assert (Hlt : k < length (items st)) by lia.
    destruct (iteration this wfDir k st) as [[[]|e] st1] eqn:It;
      destruct (iteration_turn _ _ _ _ _ _ (lookup_lt_is_Some_2 _ _ Hlt) It)
        as (evs1 & T1 & C1).
    + intros H.
      apply iteration_same_binary, same_binary_length in It.
      destruct (IH (S k) st1 ltac:(lia) H) as (turns & T2 & L2 & N2 & C2).
      exists (evs1 :: turns). simpl.
      split; [by rewrite T2, T1, app_assoc|].
      split; [lia|]. split; [intros E; by rewrite (N2 E)|].
      intros [|j] evs Hj; simpl in Hj.
      * injection Hj as <-. by rewrite Nat.add_0_r.
      * rewrite Nat.add_succ_r. by apply (C2 j).
    + intros [= <- <-]. exists [evs1]. simpl. rewrite app_nil_r.
      split; [done|]. split; [lia|]. split; [done|].
      intros [|j] evs Hj; simpl in Hj; [|done].
      injection Hj as <-. by rewrite Nat.add_0_r.
Qed.

(** Lines 85 to 91 touch neither array and call nothing but [mkdirSync]. *)
Lemma ensureWorkflowDir_trace this st r st' :
  ensureWorkflowDir this st = (r, st') ->
  items st' = items st
  /\ spreadResults st' = spreadResults st
  /\ exists evs, trace st' = trace st ++ evs /\ forallb is_mkdir evs = true.
Proof.
  rewrite ensureWorkflowDir_cases.
  destruct (fs_existsSync _ (world st)).
  - intros [= <- <-]. repeat split. exists []. by rewrite app_nil_r.
  - destruct (fs_mkdirSync _ (world st)) as [[e|] w']; intros [= <- <-];
      repeat split; by eexists [_].
Qed.

(** ** Database handles *)

(** Whenever [execute] settles, by returning or by throwing, the calls
    it has made are at most one [mkdirSync] and then, turn by turn in
    the order of the input, the calls of each item the loop has arrived
    at: every item when [execute] returns.  The calls of a turn are all
    on the file of its item and fit its kind: nothing, or one
    [unlinkSync], or one database opened, one statement sent to it, and
    [close] called on it when, and only when, that statement has not
    failed. *)
Theorem calls_by_turn this w r st :
  execute this w = (r, st) ->
  let wfDir := workflowDir this (process_cwd w) in
  exists prelude turns,
    trace st = prelude ++ concat turns
    /\ forallb is_mkdir prelude = true
    /\ length prelude <= 1
    /\ length turns <= length (getInputData this)
    /\ (forall out, r = Normal out -> length turns = length (getInputData this))
    /\ forall i evs,
         turns !! i = Some evs ->
         turn_calls (getNodeParameter this "query_type" i "AUTO")
           (dbPathOf this wfDir i) (getNodeParameter this "query" i "") evs.
Proof.
  intros H wfDir.
  assert (P : exists r0 st0 prelude,
            ensureWorkflowDir this (initialState this w) = (r0, st0)
            /\ items st0 = getInputData this
            /\ trace st0 = prelude
            /\ forallb is_mkdir prelude = true
            /\ length prelude <= 1
            /\ (forall d, r0 = Normal d -> d = wfDir)).
  { rewrite ensureWorkflowDir_cases. simpl. fold wfDir.
    destruct (fs_existsSync wfDir w).
    - exists (Normal wfDir), (initialState this w), [].
      split_and!; simpl; try done; [lia | by intros d [= <-]].
    - destruct (fs_mkdirSync wfDir w) as [[e|] w']; eexists _, _, [_];
        split_and!; simpl; try done. by intros d [= <-]. }
  destruct P as (r0 & st0 & prelude & E0 & I0 & T0 & M0 & L0 & D0).
  unfold execute, executeBody, bind in H. rewrite E0 in H.
  destruct r0 as [d|e].
  - rewrite (D0 d eq_refl) in H. unfold itemsLength in H.
    destruct (forLoop this wfDir (seq 0 (length (items st0))) st0)
      as [[[]|e] st1] eqn:E1;
      destruct (forLoop_turns this wfDir (length (items st0)) 0 st0 _ _ (le_n _) E1) as (turns & T1 & L1 & N1 & C1);
      rewrite I0 in L1, N1; rewrite T0 in T1.
    + assert (S1 : snd (selectOutput st1) = st1).
      { unfold selectOutput, bind, spreadResultsLength, prepareOutputData, ret.
        by destruct (0 <? _). }
      rewrite H in S1. simpl in S1. subst st1.
      exists prelude, turns. split_and!; try done. intros _ _. by apply N1.
    + injection H as <- <-.
      exists prelude, turns. split_and!; done.
  - injection H as <- <-.
    exists prelude, []. rewrite app_nil_r. split_and!; try done. simpl. lia.
Qed.

(** ** The input items *)

(** However the invocation ends, the input array holds the same items in
    the same order: [execute] adds none, removes none, and writes nothing
    but payloads. *)
Theorem items_are_kept this w :
  map binary (items (snd (execute this w))) = map binary (getInputData this).
Proof.
  rewrite (execute_reach this w 0) by lia.
  destruct (reach this w 0) as [[wfDir|e] st0] eqn:R;
    destruct (reach_spec _ _ _ _ _ R) as (B0 & _).
  - destruct (resume this wfDir 0 st0) as [r st] eqn:E.
    destruct (resume_spec _ _ _ _ _ _ E) as (B1 & _).
    exact (same_binary_trans _ _ _ B0 B1).
  - exact B0.
Qed.

(** ** No input *)

(** With no input item, and the directory of the workflow there or
    created, [execute] returns the (empty) input array and has called
    nothing but [mkdirSync]. *)
Theorem execute_no_items this w wfDir st0 :
  getInputData this = [] ->
  ensureWorkflowDir this (initialState this w) = (Normal wfDir, st0) ->
  execute this w = (Normal [RefItems], st0)
  /\ output (execute this w) = Some [[]]
  /\ forallb is_mkdir (trace st0) = true.
Proof.
  intros Hin E0.
  destruct (ensureWorkflowDir_trace _ _ _ _ E0) as (I0 & S0 & evs & T0 & M0).
  simpl in I0, S0, T0. rewrite Hin in I0.
  assert (E : execute this w = (Normal [RefItems], st0)).
  { unfold execute, executeBody, bind. rewrite E0.
    unfold itemsLength. rewrite I0. simpl.
    unfold selectOutput, bind, spreadResultsLength. by rewrite S0. }
  rewrite E. simpl. rewrite I0, T0. done.
Qed.

(** ** The directory cannot be created *)

(** When the directory of the workflow does not exist and [mkdirSync]
    throws, [execute] throws that error whether continue-on-fail is on
    or off: the call is outside the [try] block.  No item has been
    touched and no database opened. *)
Theorem mkdir_failure_aborts this w e w' :
  let wfDir := workflowDir this (process_cwd w) in
  fs_existsSync wfDir w = false ->
  fs_mkdirSync wfDir w = (Some e, w') ->
  execute this w
  = (Throw e,
     {| items := getInputData this; spreadResults := [];
        world := w'; trace := [EvMkdirSync wfDir true (Some e)] |})
  /\ output (execute this w) = None.
Proof.
  intros wfDir He Hm.
  assert (E : execute this w
              = (Throw e,
                 {| items := getInputData this; spreadResults := [];
                    world := w'; trace := [EvMkdirSync wfDir true (Some e)] |})).
  { unfold execute, executeBody, bind. rewrite ensureWorkflowDir_cases.
    simpl. fold wfDir. by rewrite He, Hm. }
  by rewrite E.
Qed.

(** ** Continue-on-fail *)

Lemma iteration_continues this wfDir i st :
  continueOnFail this = true ->
  is_Some (items st !! i) ->
  exists st', iteration this wfDir i st = (Normal tt, st').
Proof.
  intros Hc [it Hi]. unfold iteration, try_catch. rewrite Hc.
  destruct (tryBody this wfDir i st) as [[[]|e] st1] eqn:T; [by eexists|].
  destruct (tryBody_Throw this _ _ _ _ _ (ltac:(by eexists)) T) as [I1 _].
  eexists. apply setItemJson_Some. by rewrite I1.
Qed.

Lemma forLoop_continues this wfDir indices st :
  continueOnFail this = true ->
  Forall (fun i => i < length (items st)) indices ->
  exists st', forLoop this wfDir indices st = (Normal tt, st').
Proof.
  intros Hc Hin. revert st Hin.
  induction indices as [|i later IH]; intros st Hin; simpl; [by eexists|].
  inversion_clear Hin as [|? ? Hi Hlater]. unfold bind.
  destruct (iteration_continues this wfDir i st Hc (lookup_lt_is_Some_2 _ _ Hi))
    as (st1 & It).
  rewrite It. apply IH.
  apply iteration_same_binary, same_binary_length in It. by rewrite It.
Qed.

(** With continue-on-fail on, once the directory of the workflow is
    there, [execute] never throws: whenever it settles, it returns an
    output, whatever has failed for an item (the parse of [args], the
    statement, [unlinkSync]). *)
Theorem continue_on_fail_never_throws this w wfDir st0 r st :
  continueOnFail this = true ->
  ensureWorkflowDir this (initialState this w) = (Normal wfDir, st0) ->
  execute this w = (r, st) ->
  exists out, r = Normal out /\ output (execute this w) = Some (map (deref st) out).
Proof.
  intros Hc E0 H.
  assert (E : exists out st', execute this w = (Normal out, st')).
  { unfold execute, executeBody, bind. rewrite E0.
    unfold itemsLength.
    destruct (forLoop_continues this wfDir (seq 0 (length (items st0))) st0 Hc
                (seq_in_range _)) as (st1 & ->).
    unfold selectOutput, bind, spreadResultsLength, prepareOutputData, ret.
    destruct (0 <? _); by eexists _, _. }
  destruct E as (out & st' & E). rewrite E in H. injection H as <- <-.
  exists out. by rewrite E.
Qed.

(** ** The first failure *)

Lemma forLoop_Throw this wfDir m k st e st' :
  forLoop this wfDir (seq k m) st = (Throw e, st') ->
  exists i st_i,
    k <= i < k + m
    /\ forLoop this wfDir (seq k (i - k)) st = (Normal tt, st_i)
    /\ iteration this wfDir i st_i = (Throw e, st').
Proof.
  revert k st. induction m as [|m IH]; intros k st; simpl; [done|].
  unfold bind.
  destruct (iteration this wfDir k st) as [[[]|e1] st1] eqn:It.
  - intros H. destruct (IH _ _ H) as (i & st_i & Hi & L & T).
    exists i, st_i. split; [lia|]. split; [|done].
    replace (i - k) with (S (i - S k)) by lia.
    simpl. unfold bind. by rewrite It.
  - intros [= <- <-]. exists k, st. split; [lia|].
    by rewrite Nat.sub_diag.
Qed.

Lemma iteration_Throw this wfDir i st e st' :
  is_Some (items st !! i) ->
  iteration this wfDir i st = (Throw e, st') ->
  continueOnFail this = false /\ tryBody this wfDir i st = (Throw e, st').
Proof.
  intros Hi. unfold iteration, try_catch.
  destruct (tryBody this wfDir i st) as [[[]|e1] st1] eqn:T; [done|].
  destruct (continueOnFail this); [|by intros [= <- <-]].
  destruct (tryBody_Throw this _ _ _ _ _ Hi T) as [I1 _].
  destruct Hi as [it Hi]. by erewrite setItemJson_Some by (by rewrite I1).
Qed.

(** When [execute] throws although the directory of the workflow is
    there, continue-on-fail is off and the error is that of the first
    item whose [try] block throws: the loop had arrived at it, nothing
    was written into it, and the items after it are as they came in. *)
Theorem first_failure_aborts this w wfDir st0 e st :
  ensureWorkflowDir this (initialState this w) = (Normal wfDir, st0) ->
  execute this w = (Throw e, st) ->
  continueOnFail this = false
  /\ exists i st_i,
       i < length (getInputData this)
       /\ reach this w i = (Normal wfDir, st_i)
       /\ tryBody this wfDir i st_i = (Throw e, st)
       /\ forall j, i <= j -> items st !! j = getInputData this !! j.
Proof.
  intros E0 H.
  destruct (ensureWorkflowDir_trace _ _ _ _ E0) as (I0 & _).
  unfold execute, executeBody, bind in H. rewrite E0 in H.
  unfold itemsLength in H. rewrite I0 in H. simpl in H.
  destruct (forLoop this wfDir (seq 0 (length (getInputData this))) st0)
    as [[[]|e1] st1] eqn:L.
  { unfold selectOutput, bind, spreadResultsLength, prepareOutputData, ret in H.
    by destruct (0 <? _). }
  injection H as -> ->.
  destruct (forLoop_Throw _ _ _ _ _ _ _ L) as (i & st_i & Hi & Li & It).
  rewrite Nat.sub_0_r in Li.
  assert (R : reach this w i = (Normal wfDir, st_i)).
  { unfold reach, bind. by rewrite E0, Li. }
  assert (Hin : is_Some (items st_i !! i)).
  { apply lookup_lt_is_Some_2. rewrite (reach_length _ _ _ _ _ R). lia. }
  destruct (iteration_Throw _ _ _ _ _ _ Hin It) as [Hc T].
  split; [done|]. exists i, st_i. repeat split; try done; [lia|].
  intros j Hj. destruct (tryBody_Throw this _ _ _ _ _ Hin T) as [-> _].
  destruct (reach_spec _ _ _ _ _ R) as (_ & _ & K & _). by apply K.
Qed.

(** ** The payloads of the input array *)

Lemma with_json_id it : with_json (json it) it = it.
Proof. by destruct it. Qed.

Lemma iteration_caught_inv this wfDir i st e st1 st' it :
  items st !! i = Some it ->
  tryBody this wfDir i st = (Throw e, st1) ->
  iteration this wfDir i st = (Normal tt, st') ->
  continueOnFail this = true
  /\ items st' !! i = Some (with_json (error_payload e) it).
Proof.
  intros Hi T It.
  destruct (continueOnFail this) eqn:Hc.
  - split; [done|].
    rewrite (iteration_caught this _ _ _ _ _ _ Hc Hi T) in It.
    injection It as <-. simpl. apply list_lookup_insert_eq.
    destruct (tryBody_Throw this _ _ _ _ _ (ltac:(by eexists)) T) as [-> _].
    by eapply lookup_lt_Some.
  - by rewrite (iteration_rethrow this _ _ _ _ _ Hc T) in It.
Qed.

(** What a turn that ends normally leaves in its item. *)
Lemma iteration_payload this wfDir i st st' it :
  items st !! i = Some it ->
  iteration this wfDir i st = (Normal tt, st') ->
  exists v,
    items st' !! i = Some (with_json v it)
    /\ payload_of (continueOnFail this)
         (getNodeParameter this "query_type" i "AUTO")
         (getNodeParameter this "dbName" i "") (json it) v.
Proof.
  intros Hi It.
  assert (Hlt : i < length (items st)) by (by eapply lookup_lt_Some).
  assert (Caught : forall e st1,
            tryBody this wfDir i st = (Throw e, st1) ->
            exists v,
              items st' !! i = Some (with_json v it)
              /\ payload_of (continueOnFail this)
                   (getNodeParameter this "query_type" i "AUTO")
                   (getNodeParameter this "dbName" i "") (json it) v).
  { intros e st1 T.
    destruct (iteration_caught_inv _ _ _ _ _ _ _ _ Hi T It) as [Hc P].
    exists (error_payload e). split; [done|]. by apply payload_error. }
  assert (Done : forall st2,
            tryBody this wfDir i st = (Normal tt, st2) -> st' = st2).
  { intros st2 T. apply (iteration_Normal this) in T. congruence. }
  destruct (String.eqb (getNodeParameter this "query_type" i "AUTO") "DELETE_DATABASE")
    eqn:Hd.
  - apply String.eqb_eq in Hd.
    destruct (fs_existsSync (dbPathOf this wfDir i) (world st)) eqn:He.
    + destruct (fs_unlinkSync (dbPathOf this wfDir i) (world st)) as [[e|] w'] eqn:Hu.
      * eapply Caught. by apply tryBody_delete_failing.
      * rewrite (Done _ (tryBody_delete_existing this _ _ _ _ _ Hd Hi He Hu)).
        eexists. split; [by apply list_lookup_insert_eq|]. by apply payload_deleted.
    + rewrite (Done _ (tryBody_delete_missing this _ _ _ _ Hd Hi He)).
      eexists. split; [by apply list_lookup_insert_eq|]. by apply payload_missing.
  - destruct (JSON_parse (getNodeParameter this "args" i "{}")) as [e|args] eqn:Hp.
    { eapply Caught. by apply tryBody_parse_error. }
    destruct (String.eqb (getNodeParameter this "query_type" i "AUTO") "SELECT") eqn:Hs.
    + apply String.eqb_eq in Hs.
      destruct (Database_all (dbPathOf this wfDir i) (getNodeParameter this "query" i "")
                  args (Database_new (dbPathOf this wfDir i) (world st)))
        as [[e|rows] w'] eqn:Ha.
      * eapply Caught. by apply tryBody_select_error.
      * rewrite (Done _ (tryBody_select this _ _ _ _ _ _ Hs Hp Ha)). simpl.
        exists (json it). split; [by rewrite with_json_id|]. by apply payload_untouched.
    + assert (Hm : mutating (getNodeParameter this "query_type" i "AUTO") = true)
        by (unfold mutating; by rewrite Hd, Hs).
      destruct (Database_run (dbPathOf this wfDir i) (getNodeParameter this "query" i "")
                  args (Database_new (dbPathOf this wfDir i) (world st)))
        as [[e|] w'] eqn:Hr.
      * eapply Caught. by apply tryBody_mutating_error.
      * rewrite (Done _ (tryBody_mutating this _ _ _ _ _ _ Hm Hi Hp Hr)). simpl.
        eexists. split; [by apply list_lookup_insert_eq|]. by apply payload_changes.
Qed.

(** When [execute] returns, every item of the input array is the item
    that came in, with a payload its kind allows: its own for a
    [SELECT], [{changes: 1}] for a mutating kind, one of the two status
    records for a [DELETE_DATABASE], or, with continue-on-fail on, an
    error record. *)
Theorem payloads_by_kind this w out stf i it :
  execute this w = (Normal out, stf) ->
  getInputData this !! i = Some it ->
  exists v,
    items stf !! i = Some (with_json v it)
    /\ payload_of (continueOnFail this)
         (getNodeParameter this "query_type" i "AUTO")
         (getNodeParameter this "dbName" i "") (json it) v.
Proof.
  intros H Hin.
  assert (Hlt : i < length (getInputData this)) by (by eapply lookup_lt_Some).
  destruct (execute_all_items _ _ _ _ _ H Hlt) as (wfDir & st & st' & R & It).
  assert (Hi : items st !! i = Some it) by (by rewrite (reach_item _ _ _ _ _ R)).
  destruct (iteration_payload _ _ _ _ _ _ Hi It) as (v & P & K).
  exists v. split; [|done].
  destruct (execute_after _ _ _ _ _ _ _ _ R Hlt It H) as (-> & _). done.
Qed.

(** ** The spread records *)

Lemma execute_flushed this w : flushed (snd (execute this w)).
Proof.
  rewrite (execute_reach this w 0) by lia.
  destruct (reach this w 0) as [[wfDir|e] st0] eqn:R;
    destruct (reach_spec _ _ _ _ _ R) as (_ & F0 & _); [|done].
  destruct (resume this wfDir 0 st0) as [r st] eqn:E.
  destruct (resume_spec _ _ _ _ _ _ E) as (_ & L & _).
  by eapply flushed_logged.
Qed.

(** Every record of [spreadResults] is a row that a [db.all] of this
    invocation fetched, and nothing else: it carries no [binary] data of
    any input item. *)
Theorem spread_records_are_rows this w r :
  In r (spreadResults (snd (execute this w))) ->
  r = json_only (json r)
  /\ exists filename sql params rows,
       In (EvDatabaseAll filename sql params (inr rows)) (trace (snd (execute this w)))
       /\ In (json r) rows.
Proof.
  rewrite (execute_flushed this w). intros (ev & Hev & Hr)%in_flat_map.
  destruct ev as [| | |filename sql params [e|rows]| |]; try done.
  simpl in Hr. apply in_map_iff in Hr as (row & <- & Hrow).
  split; [done|]. by exists filename, sql, params, rows.
Qed.

(** ** What [DELETE_DATABASE] does not read *)

(** Two invocations that differ only in the [query] and the [args] of
    [DELETE_DATABASE] items make the same calls, end in the same state
    and return the same result: that branch leaves the loop before
    either parameter is read, so not even malformed [args] matter. *)
Theorem delete_reads_neither_query_nor_args this1 this2 w :
  same_but_unread_by_delete this1 this2 ->
  execute this1 w = execute this2 w.
Proof.
  intros (Hin & Hwf & Hc & Hp).
  apply execute_ext; try done.
  intros wfDir i st. destruct (Hp i) as (Hd & Hk & Hqa).
  assert (Hkind : getNodeParameter this1 "query_type" i "AUTO"
                  = getNodeParameter this2 "query_type" i "AUTO")
    by (unfold getNodeParameter; simpl; by rewrite Hk).
  unfold tryBody. rewrite <- Hkind.
  replace (getNodeParameter this2 "dbName" i "")
    with (getNodeParameter this1 "dbName" i "")
    by (unfold getNodeParameter; simpl; by rewrite Hd).
  destruct Hqa as [-> | [Hq Ha]]; [done|].
  replace (getNodeParameter this2 "query" i "")
    with (getNodeParameter this1 "query" i "")
    by (unfold getNodeParameter; simpl; by rewrite Hq).
  replace (getNodeParameter this2 "args" i "{}")
    with (getNodeParameter this1 "args" i "{}")
    by (unfold getNodeParameter; simpl; by rewrite Ha).
  done.
Qed.

(** ** Items one after the other *)

(** Two consecutive [DELETE_DATABASE] items for the same database, the
    file being there and [unlinkSync] returning: the first item reports
    the deletion, the second one that the database does not exist, and
    [unlinkSync] has been called once. *)
Theorem delete_twice {laws : RuntimeLaws W} this w i wfDir st it it' w' :
  reach this w i = (Normal wfDir, st) ->
  getInputData this !! i = Some it ->
  getInputData this !! S i = Some it' ->
  getNodeParameter this "query_type" i "AUTO" = "DELETE_DATABASE" ->
  getNodeParameter this "query_type" (S i) "AUTO" = "DELETE_DATABASE" ->
  getNodeParameter this "dbName" (S i) "" = getNodeParameter this "dbName" i "" ->
  fs_existsSync (dbPathOf this wfDir i) (world st) = true ->
  fs_unlinkSync (dbPathOf this wfDir i) (world st) = (None, w') ->
  let dbName := getNodeParameter this "dbName" i "" in
  exists st2,
    reach this w (S (S i)) = (Normal wfDir, st2)
    /\ items st2 !! i = Some (with_json (deleted_payload dbName) it)
    /\ items st2 !! S i = Some (with_json (missing_payload dbName) it')
    /\ world st2 = w'
    /\ trace st2 = trace st ++ [EvUnlinkSync (dbPathOf this wfDir i) None].
Proof.
  intros R Hin Hin' Hq Hq' Hname He Hu dbName.
  destruct (reach_spec _ _ _ _ _ R) as (_ & _ & K & _).
  assert (Hi : items st !! i = Some it) by (by rewrite K).
  assert (Hi' : items st !! S i = Some it') by (by rewrite K by lia).
  pose proof (tryBody_delete_existing this wfDir i st it w' Hq Hi He Hu) as T1.
  apply iteration_Normal in T1.
  pose proof (reach_S _ _ _ _ _ _ _ R T1) as R1. simpl in R1.
  set (st1 := set_items _ _) in *.
  assert (Hi1 : items st1 !! S i = Some it').
  { simpl. rewrite list_lookup_insert_ne by lia. done. }
  assert (Hpath : dbPathOf this wfDir (S i) = dbPathOf this wfDir i)
    by (unfold dbPathOf; by rewrite Hname).
  assert (He1 : fs_existsSync (dbPathOf this wfDir (S i)) (world st1) = false).
  { rewrite Hpath. simpl. by eapply unlinkSync_removes. }
  pose proof (tryBody_delete_missing this wfDir (S i) st1 it' Hq' Hi1 He1) as T2.
  apply iteration_Normal in T2.
  pose proof (reach_S _ _ _ _ _ _ _ R1 T2) as R2. simpl in R2.
  eexists. split; [exact R2|]. simpl. rewrite Hname. fold dbName.
  split; [|split; [|done]].
  - rewrite list_lookup_insert_ne by lia.
    apply list_lookup_insert_eq. by eapply lookup_lt_Some.
  - apply list_lookup_insert_eq. rewrite length_insert. by eapply lookup_lt_Some.
Qed.

(** A mutating item followed by a [SELECT]: the query runs on a database
    opened in the world the statement and the closing of its handle left
    behind, and the rows it fetches are spread. *)
Theorem select_follows_statement this w i wfDir st it args w1 args' rows w2 :
  reach this w i = (Normal wfDir, st) ->
  getInputData this !! i = Some it ->
  mutating (getNodeParameter this "query_type" i "AUTO") = true ->
  JSON_parse (getNodeParameter this "args" i "{}") = inr args ->
  Database_run (dbPathOf this wfDir i) (getNodeParameter this "query" i "") args
    (Database_new (dbPathOf this wfDir i) (world st)) = (None, w1) ->
  getNodeParameter this "query_type" (S i) "AUTO" = "SELECT" ->
  JSON_parse (getNodeParameter this "args" (S i) "{}") = inr args' ->
  Database_all (dbPathOf this wfDir (S i)) (getNodeParameter this "query" (S i) "") args'
    (Database_new (dbPathOf this wfDir (S i))
       (Database_close (dbPathOf this wfDir i) w1)) = (inr rows, w2) ->
  exists st2,
    reach this w (S (S i)) = (Normal wfDir, st2)
    /\ spreadResults st2 = spreadResults st ++ map json_only rows
    /\ items st2 = <[i := with_json changes_1 it]> (items st)
    /\ world st2 = Database_close (dbPathOf this wfDir (S i)) w2
    /\ trace st2
       = trace st
         ++ [EvDatabaseNew (dbPathOf this wfDir i);
             EvDatabaseRun (dbPathOf this wfDir i)
               (getNodeParameter this "query" i "") args None;
             EvDatabaseClose (dbPathOf this wfDir i);
             EvDatabaseNew (dbPathOf this wfDir (S i));
             EvDatabaseAll (dbPathOf this wfDir (S i))
               (getNodeParameter this "query" (S i) "") args' (inr rows);
             EvDatabaseClose (dbPathOf this wfDir (S i))].
Proof.
  intros R Hin Hm Hp Hr Hs Hp' Ha.
  assert (Hi : items st !! i = Some it) by (by rewrite (reach_item _ _ _ _ _ R)).
  pose proof (tryBody_mutating this wfDir i st it args w1 Hm Hi Hp Hr) as T1.
  simpl in T1. apply iteration_Normal in T1.
  pose proof (reach_S _ _ _ _ _ _ _ R T1) as R1. simpl in R1.
  match type of R1 with
  | _ = (_, ?st1) =>
      pose proof (tryBody_select this wfDir (S i) st1 args' rows w2 Hs Hp' Ha) as T2
  end.
  simpl in T2. apply iteration_Normal in T2.
  pose proof (reach_S _ _ _ _ _ _ _ R1 T2) as R2. simpl in R2.
  eexists. split; [exact R2|]. simpl. by rewrite <- app_assoc.
Qed.

End Further.

(** * Further properties of the database files *)

(** [simpl] leaves [+:+] alone; this pushes it through the characters. *)
Ltac push_append := repeat (progress (rewrite ?append_cons, ?append_nil_l)).

Section Files.

Implicit Types (s t seg name : string) (segs : list string).

Lemma append_inj_l s t u : s +:+ t = s +:+ u -> t = u.
Proof. induction s as [|c s IH]; push_append; [done|]. intros [= H]. by apply IH. Qed.

Lemma append_inj_r s t u : s +:+ u = t +:+ u -> s = t.
Proof.
  revert t. induction s as [|c s IH]; intros [|c' t]; push_append; try done.
  - intros H. apply (f_equal String.length) in H.
    simpl in H. rewrite length_append in H. lia.
  - intros H. apply (f_equal String.length) in H.
    simpl in H. rewrite length_append in H. lia.
  - intros [= -> H]. f_equal. by apply IH.
Qed.

(** [path.join(dir, '../' + name + '.db')] for a normalised absolute
    directory [dir] below the root: the file lies beside [dir]. *)
Lemma join_parent segs d name :
  segs <> [] ->
  Forall path.entry (segs ++ [d]) ->
  path.sepfree name = true ->
  path.join ["/" +:+ path.unsplit (segs ++ [d]); ("../" +:+ name) +:+ ".db"]
  = "/" +:+ path.unsplit (segs ++ [name +:+ ".db"]).
Proof.
  intros Hne Hgood Hname.
  set (db := name +:+ ".db").
  set (dir := "/" +:+ path.unsplit (segs ++ [d])).
  assert (Hdb : String.eqb db "" = false).
  { apply eqb_length. unfold db. rewrite length_append. simpl. lia. }
  apply Forall_app in Hgood as [Hsegs Hd].
  inversion_clear Hd as [|? ? [Hd1 Hd2] _].
  assert (Hall : Forall path.entry (segs ++ [db])).
  { apply Forall_app. split; [done|]. repeat constructor.
    - by apply sepfree_db.
    - apply named_db. }
  set (p := (dir +:+ String "/" "..") +:+ String "/" db).
  assert (Hjoin : path.join [dir; ("../" +:+ name) +:+ ".db"] = path.normalize p).
  { unfold path.join, p, db, dir. push_append. simpl.
    rewrite append_assoc. by push_append. }
  assert (H1 : String.eqb p "" = false) by apply append_nonempty.
  assert (H2 : path.isAbsolute p = true) by (unfold p, dir; by push_append).
  assert (H3 : path.endsWithSep p = false).
  { unfold p. rewrite endsWithSep_append by done.
    change (String "/" db) with ("/" +:+ db).
    rewrite endsWithSep_append by done.
    unfold db. by rewrite endsWithSep_append. }
  assert (H4 : path.normalizeString p false = path.unsplit (segs ++ [db])).
  { unfold path.normalizeString, p, dir. f_equal.
    rewrite !split_app. push_append. simpl path.split at 1.
    rewrite split_unsplit, (split_sepfree db).
    - replace (path.split "..") with [".."] by (by vm_compute).
      assert (Hsd : Forall path.entry (segs ++ [d])).
      { apply Forall_app. split; [done|]. by repeat constructor. }
      unfold path.normalizeSegments. rewrite !fold_left_app.
      rewrite (normalize_fold_simple false ("" :: segs ++ [d]) [])
        by (constructor; [done|]; by apply good_not_dotdot).
      simpl List.filter. rewrite filter_kept_good, rev_app_distr, app_nil_r by done.
      simpl.
      destruct (named_inv _ Hd2) as (_ & _ & E3).
      destruct (named_inv _ (named_db name)) as (F1 & F2 & F3). fold db in F1, F2, F3.
      unfold path.normalizeStep at 2. simpl. rewrite E3.
      unfold path.normalizeStep. rewrite F1, F2, F3. simpl.
      by rewrite rev_involutive.
    - by apply sepfree_db.
    - by destruct segs.
    - apply Forall_app. split.
      + eapply Forall_impl; [exact Hsegs|]. by intros ? [? _].
      + by repeat constructor.
  }
  assert (H5 : String.eqb (path.unsplit (segs ++ [db])) "" = false).
  { apply unsplit_nonempty; [by destruct segs|].
    eapply Forall_impl; [exact Hall|]. by intros ? [_ ?]. }
  rewrite Hjoin. unfold path.normalize. cbv zeta.
  rewrite H1, H2, H3. simpl negb. by rewrite H4, H5.
Qed.

Lemma resolve_databases cwd :
  path.isAbsolute cwd = true ->
  path.resolve cwd ["./databases"]
  = "/" +:+ path.unsplit (path.directories cwd ++ ["databases"]).
Proof.
  intros Hcwd. rewrite resolve_one by done.
  replace (path.split "./databases") with ["."; "databases"] by (by vm_compute).
  rewrite normalizeSegments_app by (by repeat constructor). done.
Qed.

Lemma entries_sepfree segs :
  Forall path.entry segs -> Forall (fun seg => path.sepfree seg = true) segs.
Proof. intros H. eapply Forall_impl; [exact H|]. by intros ? [? _]. Qed.

(** A database name that starts with [../] addresses a file outside the
    directory of the workflow: [<name>.db] directly in [./databases],
    whatever the workflow is. *)
Theorem parent_dbName_leaves_workflow this cwd i name :
  path.isAbsolute cwd = true ->
  path.sepfree (workflowId this) = true ->
  path.named (workflowId this) = true ->
  path.sepfree name = true ->
  getNodeParameter this "dbName" i "" = "../" +:+ name ->
  dbPathOf this (workflowDir this cwd) i
  = path.resolve cwd ["./databases"] +:+ "/" +:+ name +:+ ".db".
Proof.
  intros Hcwd Hsep Hnamed Hname Hdb.
  unfold dbPathOf, workflowDir. rewrite Hdb.
  rewrite resolve_workflowDir, resolve_databases by done.
  change (path.directories cwd ++ ["databases"; workflowId this])
    with (path.directories cwd ++ ["databases"] ++ [workflowId this]).
  rewrite app_assoc.
  assert (Hdir : Forall path.entry (path.directories cwd ++ ["databases"])).
  { apply Forall_app. split; [apply directories_good | by repeat constructor]. }
  rewrite join_parent; [| by destruct (path.directories cwd) | | done].
  - rewrite unsplit_snoc by (by destruct (path.directories cwd)). by push_append.
  - apply Forall_app. split; [done | by repeat constructor].
Qed.

(** An item without a database name, or with the empty one, addresses
    the file [.db] in the directory of the workflow. *)
Theorem missing_dbName_file this cwd i :
  path.isAbsolute cwd = true ->
  path.sepfree (workflowId this) = true ->
  path.named (workflowId this) = true ->
  (param_dbName (nodeParameters this i) = None
   \/ param_dbName (nodeParameters this i) = Some "") ->
  dbPathOf this (workflowDir this cwd) i = workflowDir this cwd +:+ "/.db".
Proof.
  intros Hcwd Hsep Hnamed Hdb.
  assert (E : getNodeParameter this "dbName" i "" = "")
    by (unfold getNodeParameter; simpl; by destruct Hdb as [-> | ->]).
  unfold dbPathOf, workflowDir. rewrite E.
  by destruct (join_dbPath cwd (workflowId this) "") as [_ ->].
Qed.

(** For workflow identifiers and database names that are single path
    segments, two items address the same file only if they belong to
    the same workflow and name the same database. *)
Theorem dbPath_injective this1 this2 cwd i j :
  path.isAbsolute cwd = true ->
  path.sepfree (workflowId this1) = true -> path.named (workflowId this1) = true ->
  path.sepfree (workflowId this2) = true -> path.named (workflowId this2) = true ->
  path.sepfree (getNodeParameter this1 "dbName" i "") = true ->
  path.sepfree (getNodeParameter this2 "dbName" j "") = true ->
  dbPathOf this1 (workflowDir this1 cwd) i = dbPathOf this2 (workflowDir this2 cwd) j ->
  workflowId this1 = workflowId this2
  /\ getNodeParameter this1 "dbName" i "" = getNodeParameter this2 "dbName" j "".
Proof.
  intros Hcwd Hs1 Hn1 Hs2 Hn2 Hd1 Hd2. unfold dbPathOf, workflowDir.
  destruct (join_dbPath cwd (workflowId this1) (getNodeParameter this1 "dbName" i ""))
    as [-> _]; try done.
  destruct (join_dbPath cwd (workflowId this2) (getNodeParameter this2 "dbName" j ""))
    as [-> _]; try done.
  push_append. intros [= H].
  apply (f_equal path.split) in H.
  rewrite !split_unsplit in H.
  - apply app_inv_head in H. injection H as -> H.
    split; [done|]. by apply append_inj_r in H.
  - by destruct (path.directories cwd).
  - apply Forall_app. split; [apply entries_sepfree, directories_good|].
    repeat constructor; try done. by apply sepfree_db.
  - by destruct (path.directories cwd).
  - apply Forall_app. split; [apply entries_sepfree, directories_good|].
    repeat constructor; try done. by apply sepfree_db.
Qed.

End Files.

(** ** The further properties on the in-memory runtime *)

(** No item, in a process that has never run the node. *)
Lemma execute_no_items_witness :
  output (execute (Ex.host false []) Ex.fresh) = Some [[]]
  /\ trace (snd (execute (Ex.host false []) Ex.fresh)) = [EvMkdirSync Ex.wf1 true None].
Proof.
  edestruct (execute_no_items (W:=Mem.World) (Ex.host false []) Ex.fresh) as (E & O & _);
    [reflexivity | vm_compute; reflexivity |].
  split; [exact O | by rewrite E].
Defined.

(** Continue-on-fail is on, but the directory cannot be created. *)
Lemma mkdir_failure_aborts_witness :
  output (execute (Ex.host true [Ex.insert_order]) More.readonly) = None
  /\ fst (execute (Ex.host true [Ex.insert_order]) More.readonly)
     = Throw (mkError "EACCES: permission denied, mkdir '/home/node/databases/wf1'").
Proof.
  edestruct (mkdir_failure_aborts (W:=Mem.World) (Ex.host true [Ex.insert_order])
               More.readonly) as (E & O);
    [vm_compute; reflexivity | vm_compute; reflexivity |].
  split; [exact O | by rewrite E].
Defined.

(** Three items that all fail, continue-on-fail on. *)
Lemma continue_on_fail_never_throws_witness :
  let this := Ex.host true [Ex.insert_bad_args; More.select_failing; More.delete_locked] in
  exists out,
    fst (execute this Ex.shop) = Normal out
    /\ output (execute this Ex.shop)
       = Some (map (deref (snd (execute this Ex.shop))) out).
Proof.
  intros this.
  eapply (continue_on_fail_never_throws (W:=Mem.World) this Ex.shop);
    [reflexivity | vm_compute; reflexivity | apply surjective_pairing].
Defined.

(** An [INSERT] the driver accepts, a [SELECT] it rejects, and the
    deletion of a database that exists, continue-on-fail on. *)
Lemma calls_by_turn_witness :
  let this := Ex.host true [Ex.insert_order; More.select_failing; Ex.delete_old] in
  exists prelude turns,
    trace (snd (execute this Ex.shop)) = prelude ++ concat turns
    /\ length turns = 3
    /\ forall i evs,
         turns !! i = Some evs ->
         turn_calls (getNodeParameter this "query_type" i "AUTO")
           (dbPathOf this Ex.wf1 i) (getNodeParameter this "query" i "") evs.
Proof.
  intros this.
  destruct (calls_by_turn (W:=Mem.World) this Ex.shop _ _ (surjective_pairing _))
    as (prelude & turns & T & _ & _ & _ & N & C).
  exists prelude, turns. split; [exact T|]. split; [|exact C].
  exact (N _ eq_refl).
Defined.

(** The second of three items fails, continue-on-fail off. *)
Lemma first_failure_aborts_witness :
  let this := Ex.host false [Ex.insert_order; Ex.insert_bad_args; Ex.insert_order] in
  exists i st_i,
    i < length (getInputData this)
    /\ reach this Ex.shop i = (Normal Ex.wf1, st_i)
    /\ tryBody this Ex.wf1 i st_i
       = (Throw (mkError "Unexpected token in JSON"), snd (execute this Ex.shop))
    /\ forall j, i <= j -> items (snd (execute this Ex.shop)) !! j = getInputData this !! j.
Proof.
  intros this.
  edestruct (first_failure_aborts (W:=Mem.World) this Ex.shop) as [_ H];
    [vm_compute; reflexivity | vm_compute; reflexivity |].
  exact H.
Defined.

(** A failing item and a deletion, continue-on-fail on. *)
Lemma payloads_by_kind_witness :
  let this := Ex.host true [Ex.insert_bad_args; Ex.delete_old] in
  exists v,
    items (snd (execute this Ex.shop)) !! 1 = Some (with_json v (Ex.input 1))
    /\ payload_of true "DELETE_DATABASE" "old" (json (Ex.input 1)) v.
Proof.
  intros this.
  pose proof (fun out stf =>
                payloads_by_kind (W:=Mem.World) this Ex.shop out stf 1 (Ex.input 1)) as H.
  edestruct H as (v & P & K); [vm_compute; reflexivity | reflexivity |].
  exists v. split; [exact P | exact K].
Defined.

(** The first of the two rows a [SELECT] fetches. *)
Lemma spread_records_are_rows_witness :
  let this := Ex.host false [Ex.select_orders] in
  exists filename sql params rows,
    In (EvDatabaseAll filename sql params (inr rows)) (trace (snd (execute this Ex.shop)))
    /\ In (Ex.row 1) rows.
Proof.
  intros this.
  destruct (spread_records_are_rows (W:=Mem.World) this Ex.shop (json_only (Ex.row 1)))
    as (_ & H); [vm_compute; tauto|].
  exact H.
Defined.

(** A deletion sent with a query and with malformed [args]. *)
Lemma delete_reads_neither_query_nor_args_witness :
  execute (Ex.host false [More.delete_old_with_query]) Ex.shop
  = execute (Ex.host false [Ex.delete_old_bad_args]) Ex.shop.
Proof.
  apply (delete_reads_neither_query_nor_args (W:=Mem.World)).
  repeat split; try reflexivity.
  all: destruct i as [|[|i]]; try reflexivity;
    first [left; reflexivity | right; split; reflexivity].
Defined.

(** The database [old] deleted twice. *)
Lemma delete_twice_witness :
  let this := Ex.host false [Ex.delete_old; Ex.delete_old] in
  exists st2,
    reach this Ex.shop 2 = (Normal Ex.wf1, st2)
    /\ items st2 !! 0 = Some (with_json (deleted_payload "old") (Ex.input 0))
    /\ items st2 !! 1 = Some (with_json (missing_payload "old") (Ex.input 1))
    /\ trace st2 = [EvUnlinkSync "/home/node/databases/wf1/old.db" None].
Proof.
  intros this.
  edestruct (delete_twice (W:=Mem.World) (laws:=mem_runtime_laws) this Ex.shop 0)
    as (st2 & R & I0 & I1 & _ & T); [vm_compute; reflexivity ..|].
  exists st2. split; [exact R|]. split; [exact I0|]. split; [exact I1 | exact T].
Defined.

(** An [INSERT] and then a [SELECT] on the same database. *)
Lemma select_follows_statement_witness :
  let this := Ex.host false [Ex.insert_order; Ex.select_orders] in
  exists st2,
    reach this Ex.shop 2 = (Normal Ex.wf1, st2)
    /\ spreadResults st2 = [json_only (Ex.row 1); json_only (Ex.row 2)].
Proof.
  intros this.
  edestruct (select_follows_statement (W:=Mem.World) this Ex.shop 0)
    as (st2 & R & S & _); [vm_compute; reflexivity ..|].
  exists st2. split; [exact R | exact S].
Defined.

(** The database [../shared] of the workflow [wf1]. *)
Lemma parent_dbName_leaves_workflow_witness :
  dbPathOf (Ex.host false [More.insert_shared])
    (workflowDir (Ex.host false [More.insert_shared]) "/home/node") 0
  = "/home/node/databases/shared.db".
Proof.
  rewrite (parent_dbName_leaves_workflow (Ex.host false [More.insert_shared])
             "/home/node" 0 "shared" eq_refl eq_refl eq_refl eq_refl eq_refl).
  by vm_compute.
Defined.

(** An item for which the host has no parameter at all. *)
Lemma missing_dbName_file_witness :
  dbPathOf (Ex.host false [Ex.no_parameters])
    (workflowDir (Ex.host false [Ex.no_parameters]) "/home/node") 0
  = "/home/node/databases/wf1/.db".
Proof.
  rewrite (missing_dbName_file (Ex.host false [Ex.no_parameters]) "/home/node" 0
             eq_refl eq_refl eq_refl (or_introl eq_refl)).
  by vm_compute.
Defined.

(** Two items of one invocation on the database [orders]. *)
Lemma dbPath_injective_witness :
  let this := Ex.host false [Ex.insert_order; Ex.select_orders] in
  workflowId this = workflowId this
  /\ getNodeParameter this "dbName" 0 "" = getNodeParameter this "dbName" 1 "".
Proof.
  intros this.
  apply (dbPath_injective this this "/home/node" 0 1); reflexivity.
Defined.
